(** * fastapi_ecommerce: categories, products, reviews and the derived rating

    A shallow embedding of the three routers of the application
    ([app/routers/categories.py], [app/routers/products.py],
    [app/routers/reviews.py]) over an explicit database state, followed by
    the properties of the specification that concern them.

    A table is a finite map from the primary key to the row; a handler is a
    function from the database to the database after the request and the
    response.  An [HTTPException] raised before the first write leaves the
    database as it was; the only fault after a commit is the attribute
    access on a missing product in [update_product_rating]. *)

From Stdlib Require Import ZArith QArith String.
From stdpp Require Import gmap strings list fin_maps.

Open Scope string_scope.
Open Scope Z_scope.

(** ** Rows *)

(** Modelled from the spec: [app/models/categories.py] is not part of the
    sources at hand.  "Category: id, name, parent reference (optional,
    self-referential, nullable), is_active flag".  The id is the key of the
    table. *)
Record CategoryModel := mkCategory {
  c_name : string;
  c_parent_id : option Z;
  c_is_active : bool
}.

(** Modelled from the spec: [app/models/products.py] is not part of the
    sources at hand.  "Product: id, name, description, price, category
    reference, seller reference (owner), rating (derived, defaults to 0),
    is_active flag". *)
Record ProductModel := mkProduct {
  p_name : string;
  p_description : string;
  p_price : Q;
  p_category_id : Z;
  p_seller_id : Z;
  p_rating : Q;
  p_is_active : bool
}.

(** [app/models/reviews.py], class [Review]. *)
Record ReviewModel := mkReview {
  r_user_id : Z;
  r_product_id : Z;
  r_comment : option string;
  r_comment_date : Z;
  r_grade : Z;
  r_is_active : bool
}.

(** Modelled from the spec: [app/models/users.py] and [app/auth.py] are not
    part of the sources at hand.  "User: id, role (buyer | seller | admin)".
    The handlers below only read [current_user.id]. *)
Inductive role := buyer | seller | admin.

Record UserModel := mkUser {
  u_id : Z;
  u_role : role
}.

(** ** Request payloads *)

(** A field of a pydantic model that may be left out of the request body:
    [model_dump(exclude_unset=True)] drops the fields that are [Unset]. *)
Inductive field (A : Type) :=
| Unset
| Given (a : A).
Arguments Unset {A}.
Arguments Given {A} a.

(** Modelled from the spec: [app/schemas.py] is not part of the sources at
    hand.  "create(name, parentId?)". *)
Record CategoryCreate := mkCategoryCreate {
  cc_name : string;
  cc_parent_id : field (option Z)
}.

(** [category.parent_id]: the default of the optional field is [None]. *)
Definition parent_id (category : CategoryCreate) : option Z :=
  match cc_parent_id category with
  | Unset => None
  | Given v => v
  end.

(** Modelled from the spec: the mutable fields of a product; "ratings are
    ... never set directly by a client", the owner comes from the session
    and nothing reactivates a product. *)
Record ProductCreate := mkProductCreate {
  pc_name : string;
  pc_description : string;
  pc_price : Q;
  pc_category_id : Z
}.

(** Modelled from the spec: the fields of a review that are not filled in by
    the handler ([user_id]) or by a column default ([comment_date],
    [is_active]). *)
Record ReviewCreate := mkReviewCreate {
  rc_product_id : Z;
  rc_comment : option string;
  rc_grade : Z
}.

(** ** Responses *)

Definition HTTP_400_BAD_REQUEST : Z := 400.
Definition HTTP_403_FORBIDDEN : Z := 403.
Definition HTTP_404_NOT_FOUND : Z := 404.

Record HTTPException := mkHTTPException {
  status_code : Z;
  detail : string
}.

(** What a handler hands back: a body, an [HTTPException], or an exception
    that is none ([AttributeError] on [None]), which the middleware of
    [app/main.py] turns into a 500. *)
Inductive response (A : Type) :=
| Return (a : A)
| Raise (e : HTTPException)
| Unhandled.
Arguments Return {A} a.
Arguments Raise {A} e.
Arguments Unhandled {A}.

Definition raise {A} (code : Z) (msg : string) : response A :=
  Raise (mkHTTPException code msg).

(** ** The database *)

Record DB := mkDB {
  categories : gmap Z CategoryModel;
  products : gmap Z ProductModel;
  reviews : gmap Z ReviewModel
}.

Definition empty_db : DB := mkDB ∅ ∅ ∅.

Definition set_categories (t : gmap Z CategoryModel) (db : DB) : DB :=
  mkDB t (products db) (reviews db).
Definition set_products (t : gmap Z ProductModel) (db : DB) : DB :=
  mkDB (categories db) t (reviews db).
Definition set_reviews (t : gmap Z ReviewModel) (db : DB) : DB :=
  mkDB (categories db) (products db) t.

(** The key an autoincrement column gives to the next row: one more than the
    largest key in use (rows are never removed), 1 in an empty table. *)
Definition max_id {A} (t : gmap Z A) : Z :=
  foldr (λ x acc, Z.max x.1 acc) 0 (map_to_list t).

Definition next_id {A} (t : gmap Z A) : Z := max_id t + 1.

(** [db.scalar(select(M).where(M.id == id, M.is_active.is_(True)))] *)
Definition select_active {A} (is_active : A → bool) (t : gmap Z A) (id : Z)
  : option A :=
  match t !! id with
  | Some row => if is_active row then Some row else None
  | None => None
  end.

(** [db.scalars(select(M).where(...)).all()], rows with their keys. *)
Definition select_all {A} (P : Z * A → Prop) `{∀ x, Decision (P x)}
    (t : gmap Z A) : list (Z * A) :=
  filter P (map_to_list t).

(** ** Categories: [app/routers/categories.py] *)

Definition get_all_categories (db : DB) : list (Z * CategoryModel) :=
  select_all (λ x, c_is_active x.2 = true) (categories db).

Definition create_category (category : CategoryCreate) (db : DB)
  : DB * response (Z * CategoryModel) :=
  let insert :=
    let db_category := mkCategory (cc_name category) (parent_id category) true in
    let id := next_id (categories db) in
    (set_categories (<[id := db_category]> (categories db)) db,
     Return (id, db_category)) in
  match parent_id category with
  | Some pid =>
      match select_active c_is_active (categories db) pid with
      | None => (db, raise HTTP_400_BAD_REQUEST "Parent category not found")
      | Some _ => insert
      end
  | None => insert
  end.

(** The values of [category.model_dump(exclude_unset=True)]: the name is
    required, so always set; the parent only when the body carries it. *)
Definition category_values (category : CategoryCreate) (row : CategoryModel)
  : CategoryModel :=
  mkCategory (cc_name category)
             (match cc_parent_id category with
              | Unset => c_parent_id row
              | Given v => v
              end)
             (c_is_active row).

Definition update_category (category_id : Z) (category : CategoryCreate)
    (db : DB) : DB * response (Z * CategoryModel) :=
  match select_active c_is_active (categories db) category_id with
  | None => (db, raise HTTP_404_NOT_FOUND "Category not found")
  | Some db_category =>
      let write :=
        let row := category_values category db_category in
        (set_categories (<[category_id := row]> (categories db)) db,
         Return (category_id, row)) in
      match parent_id category with
      | Some pid =>
          match select_active c_is_active (categories db) pid with
          | None => (db, raise HTTP_400_BAD_REQUEST "Parent category not found")
          | Some _ =>
              if decide (pid = category_id)
              then (db, raise HTTP_400_BAD_REQUEST
                              "Category cannot be its own parent")
              else write
          end
      | None => write
      end
  end.

Definition deactivate_category (row : CategoryModel) : CategoryModel :=
  mkCategory (c_name row) (c_parent_id row) false.

Definition delete_category (category_id : Z) (db : DB)
  : DB * response (Z * CategoryModel) :=
  match select_active c_is_active (categories db) category_id with
  | None => (db, raise HTTP_404_NOT_FOUND "Category not found")
  | Some db_category =>
      let row := deactivate_category db_category in
      (set_categories (<[category_id := row]> (categories db)) db,
       Return (category_id, row))
  end.

(** ** Products: [app/routers/products.py] *)

Definition get_all_products (db : DB) : list (Z * ProductModel) :=
  select_all (λ x, p_is_active x.2 = true) (products db).

Definition create_product (product : ProductCreate) (current_user : UserModel)
    (db : DB) : DB * response (Z * ProductModel) :=
  match select_active c_is_active (categories db) (pc_category_id product) with
  | None => (db, raise HTTP_400_BAD_REQUEST "Category not found")
  | Some _ =>
      let db_product :=
        mkProduct (pc_name product) (pc_description product) (pc_price product)
                  (pc_category_id product) (u_id current_user) 0%Q true in
      let id := next_id (products db) in
      (set_products (<[id := db_product]> (products db)) db,
       Return (id, db_product))
  end.

Definition get_products_by_category (category_id : Z) (db : DB)
  : response (list (Z * ProductModel)) :=
  match select_active c_is_active (categories db) category_id with
  | None => raise HTTP_400_BAD_REQUEST "Category not found"
  | Some _ =>
      Return (select_all
                (λ x, p_category_id x.2 = category_id ∧ p_is_active x.2 = true)
                (products db))
  end.

Definition get_product (product_id : Z) (db : DB)
  : response (Z * ProductModel) :=
  match select_active p_is_active (products db) product_id with
  | None => raise HTTP_404_NOT_FOUND "Product not found"
  | Some product => Return (product_id, product)
  end.

(** The values of [product.model_dump()]: every field of the payload. *)
Definition product_values (product : ProductCreate) (row : ProductModel)
  : ProductModel :=
  mkProduct (pc_name product) (pc_description product) (pc_price product)
            (pc_category_id product) (p_seller_id row) (p_rating row)
            (p_is_active row).

(** The first select has no [is_active] condition. *)
Definition update_product (product_id : Z) (product : ProductCreate)
    (current_user : UserModel) (db : DB) : DB * response (Z * ProductModel) :=
  match products db !! product_id with
  | None => (db, raise HTTP_404_NOT_FOUND "Product not found")
  | Some db_product =>
      if decide (p_seller_id db_product ≠ u_id current_user)
      then (db, raise HTTP_403_FORBIDDEN "You can only update your own products")
      else
        match select_active c_is_active (categories db)
                            (pc_category_id product) with
        | None => (db, raise HTTP_400_BAD_REQUEST "Category not found")
        | Some _ =>
            let row := product_values product db_product in
            (set_products (<[product_id := row]> (products db)) db,
             Return (product_id, row))
        end
  end.

Definition deactivate_product (row : ProductModel) : ProductModel :=
  mkProduct (p_name row) (p_description row) (p_price row) (p_category_id row)
            (p_seller_id row) (p_rating row) false.

Definition delete_product (product_id : Z) (current_user : UserModel)
    (db : DB) : DB * response (Z * ProductModel) :=
  match select_active p_is_active (products db) product_id with
  | None => (db, raise HTTP_404_NOT_FOUND "Product not found")
  | Some product =>
      if decide (p_seller_id product ≠ u_id current_user)
      then (db, raise HTTP_403_FORBIDDEN "You can only delete your own products")
      else
        let row := deactivate_product product in
        (set_products (<[product_id := row]> (products db)) db,
         Return (product_id, row))
  end.

(** The rows of
    [select(ReviewModel).where(product_id == ..., is_active.is_(True))]. *)
Definition active_reviews (product_id : Z) (db : DB) : list (Z * ReviewModel) :=
  select_all (λ x, r_product_id x.2 = product_id ∧ r_is_active x.2 = true)
             (reviews db).

Definition get_product_reviews (product_id : Z) (db : DB)
  : response (list (Z * ReviewModel)) :=
  match select_active p_is_active (products db) product_id with
  | None => raise HTTP_404_NOT_FOUND "Product not found"
  | Some _ => Return (active_reviews product_id db)
  end.

(** ** Reviews: [app/routers/reviews.py] *)

Definition get_reviews (db : DB) : list (Z * ReviewModel) :=
  select_all (λ x, r_is_active x.2 = true) (reviews db).

Definition sum_grades (l : list Z) : Z := foldr Z.add 0 l.

(** The arithmetic mean of a list of grades, as an exact rational. *)
Definition mean (l : list Z) : Q :=
  (inject_Z (sum_grades l) / inject_Z (Z.of_nat (length l)))%Q.

(** [func.avg]: NULL over no rows. *)
Definition avg (l : list Z) : option Q :=
  match l with
  | [] => None
  | _ => Some (mean l)
  end.

(** [result.scalar() or 0.0]: [None] and a zero average are both falsy. *)
Definition or_zero (v : option Q) : Q :=
  match v with
  | Some q => if Qeq_bool q 0 then 0%Q else q
  | None => 0%Q
  end.

Definition active_grades (product_id : Z) (db : DB) : list Z :=
  (λ x, r_grade x.2) <$> active_reviews product_id db.

Definition set_rating (rating : Q) (row : ProductModel) : ProductModel :=
  mkProduct (p_name row) (p_description row) (p_price row) (p_category_id row)
            (p_seller_id row) rating (p_is_active row).

(** [db.get(ProductModel, product_id)] has no [is_active] condition; on a
    missing product the assignment to [product.rating] fails. *)
Definition update_product_rating (db : DB) (product_id : Z) : option DB :=
  let avg_rating := or_zero (avg (active_grades product_id db)) in
  match products db !! product_id with
  | None => None
  | Some product =>
      Some (set_products
              (<[product_id := set_rating avg_rating product]> (products db)) db)
  end.

(** [now] is the reading of [datetime.now] for the column default of
    [comment_date]. *)
Definition create_review (now : Z) (review : ReviewCreate)
    (current_user : UserModel) (db : DB) : DB * response (Z * ReviewModel) :=
  match select_active p_is_active (products db) (rc_product_id review) with
  | None => (db, raise HTTP_404_NOT_FOUND "Product not found")
  | Some db_product =>
      if decide (rc_grade review < 1 ∨ rc_grade review > 5)
      then (db, raise HTTP_400_BAD_REQUEST
                      "The grade should be in the range from 1 to 5")
      else
        let new_review :=
          mkReview (u_id current_user) (rc_product_id review)
                   (rc_comment review) now (rc_grade review) true in
        let id := next_id (reviews db) in
        let db1 := set_reviews (<[id := new_review]> (reviews db)) db in
        match update_product_rating db1 (rc_product_id review) with
        | Some db2 => (db2, Return (id, new_review))
        | None => (db1, Unhandled)
        end
  end.

Definition deactivate_review (row : ReviewModel) : ReviewModel :=
  mkReview (r_user_id row) (r_product_id row) (r_comment row)
           (r_comment_date row) (r_grade row) false.

Definition delete_review (review_id : Z) (current_user : UserModel) (db : DB)
  : DB * response string :=
  match select_active r_is_active (reviews db) review_id with
  | None => (db, raise HTTP_404_NOT_FOUND "Review not found")
  | Some review =>
      let db1 :=
        set_reviews (<[review_id := deactivate_review review]> (reviews db)) db in
      match update_product_rating db1 (r_product_id review) with
      | Some db2 => (db2, Return "Review deleted")
      | None => (db1, Unhandled)
      end
  end.

(** ** The application: one request at a time *)

Inductive request :=
| GetAllCategories
| CreateCategory (category : CategoryCreate)
| UpdateCategory (category_id : Z) (category : CategoryCreate)
| DeleteCategory (category_id : Z)
| GetAllProducts
| CreateProduct (product : ProductCreate) (current_user : UserModel)
| GetProductsByCategory (category_id : Z)
| GetProduct (product_id : Z)
| UpdateProduct (product_id : Z) (product : ProductCreate)
                (current_user : UserModel)
| DeleteProduct (product_id : Z) (current_user : UserModel)
| GetProductReviews (product_id : Z)
| GetReviews
| CreateReview (now : Z) (review : ReviewCreate) (current_user : UserModel)
| DeleteReview (review_id : Z) (current_user : UserModel).

Definition has_role (r : role) (user : UserModel) : bool :=
  match r, u_role user with
  | buyer, buyer | seller, seller | admin, admin => true
  | _, _ => false
  end.

(** Modelled from the spec: the dependencies [get_current_seller],
    [get_current_buyer] and [get_current_admin] of [app/auth.py]: "requires
    seller capability" and the like; a request of a user without the role
    does not reach the handler. *)
Definition requires {A} (r : role) (user : UserModel) (db : DB)
    (handler : DB → DB * response A) : DB :=
  if has_role r user then (handler db).1 else db.

(** The database after a request.  The listings write nothing. *)
Definition app (req : request) (db : DB) : DB :=
  match req with
  | GetAllCategories | GetAllProducts | GetProductsByCategory _
  | GetProduct _ | GetProductReviews _ | GetReviews => db
  | CreateCategory category => (create_category category db).1
  | UpdateCategory category_id category =>
      (update_category category_id category db).1
  | DeleteCategory category_id => (delete_category category_id db).1
  | CreateProduct product user =>
      requires seller user db (create_product product user)
  | UpdateProduct product_id product user =>
      requires seller user db (update_product product_id product user)
  | DeleteProduct product_id user =>
      requires seller user db (delete_product product_id user)
  | CreateReview now review user =>
      requires buyer user db (create_review now review user)
  | DeleteReview review_id user =>
      requires admin user db (delete_review review_id user)
  end.

(** The requests of a list, served in order. *)
Definition serve (reqs : list request) (db : DB) : DB :=
  foldl (λ d req, app req d) db reqs.


(** ** The vocabulary of the specification *)

(** The error classes, by the status and the message the handlers raise. *)
Definition NotFound (e : HTTPException) : Prop :=
  status_code e = HTTP_404_NOT_FOUND.

Definition Forbidden (e : HTTPException) : Prop :=
  status_code e = HTTP_403_FORBIDDEN.

Definition InvalidReference (e : HTTPException) : Prop :=
  status_code e = HTTP_400_BAD_REQUEST ∧
  (detail e = "Category not found" ∨ detail e = "Parent category not found").

Definition InvalidSelfReference (e : HTTPException) : Prop :=
  e = mkHTTPException HTTP_400_BAD_REQUEST "Category cannot be its own parent".

Definition InvalidGrade (e : HTTPException) : Prop :=
  e = mkHTTPException HTTP_400_BAD_REQUEST
                      "The grade should be in the range from 1 to 5".

Definition fails_with {A} (class : HTTPException → Prop) (r : response A)
  : Prop :=
  ∃ e, r = Raise e ∧ class e.

(** "the mean grade of active reviews for the product, or 0 if none exist" *)
Definition expected_rating (grades : list Z) : Q :=
  match grades with
  | [] => 0%Q
  | _ => mean grades
  end.

Definition rating_ok (db : DB) (product_id : Z) : Prop :=
  ∀ p, products db !! product_id = Some p →
       (p_rating p == expected_rating (active_grades product_id db))%Q.

Definition rating_inv (db : DB) : Prop := ∀ product_id, rating_ok db product_id.

(** The foreign key of [reviews.product_id]. *)
Definition reviews_refer_to_products (db : DB) : Prop :=
  ∀ id r, reviews db !! id = Some r → is_Some (products db !! r_product_id r).

Definition consistent (db : DB) : Prop :=
  reviews_refer_to_products db ∧ rating_inv db.

Definition category_active (db : DB) (id : Z) : Prop :=
  is_Some (select_active c_is_active (categories db) id).

(** "a category cannot be its own parent; a category's parent, if set, must
    reference another currently-active category" *)
Definition parent_ok (db : DB) (id : Z) (c : CategoryModel) : Prop :=
  match c_parent_id c with
  | Some pid => pid ≠ id ∧ category_active db pid
  | None => True
  end.

Definition category_inv (db : DB) : Prop :=
  map_Forall (parent_ok db) (categories db).

(** The part of it that does not look at [is_active] of the parent. *)
Definition parent_exists (db : DB) (id : Z) (c : CategoryModel) : Prop :=
  match c_parent_id c with
  | Some pid => pid ≠ id ∧ is_Some (categories db !! pid)
  | None => True
  end.

Definition category_refs (db : DB) : Prop :=
  map_Forall (parent_exists db) (categories db).

(** No category has [id] as its parent. *)
Definition childless (db : DB) (id : Z) : Prop :=
  map_Forall (λ _ c, c_parent_id c ≠ Some id) (categories db).

#[global] Instance parent_ok_dec db id c : Decision (parent_ok db id c).
Proof. unfold parent_ok. destruct (c_parent_id c); apply _. Defined.

#[global] Instance parent_exists_dec db id c : Decision (parent_exists db id c).
Proof. unfold parent_exists. destruct (c_parent_id c); apply _. Defined.

#[global] Instance category_inv_dec db : Decision (category_inv db).
Proof. unfold category_inv. apply _. Defined.

#[global] Instance category_refs_dec db : Decision (category_refs db).
Proof. unfold category_refs. apply _. Defined.

#[global] Instance childless_dec db id : Decision (childless db id).
Proof. unfold childless. apply _. Defined.

(** The row [(id, r)] if it is an active review of the product. *)
Definition review_if (product_id id : Z) (r : ReviewModel)
  : list (Z * ReviewModel) :=
  if decide (r_product_id r = product_id ∧ r_is_active r = true)
  then [(id, r)] else [].

(** The fields of a row other than [is_active] (and, for a product, other
    than [rating]). *)
Definition category_fields (c : CategoryModel) : string * option Z :=
  (c_name c, c_parent_id c).

Definition product_fields (p : ProductModel) : string * string * Q * Z * Z :=
  (p_name p, p_description p, p_price p, p_category_id p, p_seller_id p).

Definition review_fields (r : ReviewModel)
  : Z * Z * option string * Z * Z :=
  (r_user_id r, r_product_id r, r_comment r, r_comment_date r, r_grade r).

(** With no active review left, the rating is 0. *)
Definition zero_if_unreviewed (db : DB) (product_id : Z) : Prop :=
  active_reviews product_id db = [] →
  ∃ p, products db !! product_id = Some p ∧ (p_rating p == 0)%Q.

Definition product_active (db : DB) (id : Z) : Prop :=
  is_Some (select_active p_is_active (products db) id).

(** The admin soft-deletes the reviews of a list, one request each. *)
Definition delete_reviews (review_ids : list Z) (current_user : UserModel)
    (db : DB) : DB :=
  foldl (λ d id, (delete_review id current_user d).1) db review_ids.

(** ** A sample shop *)

Definition seller7 : UserModel := mkUser 7 seller.
Definition seller9 : UserModel := mkUser 9 seller.
Definition buyer8 : UserModel := mkUser 8 buyer.
Definition admin1 : UserModel := mkUser 1 admin.

Definition books : CategoryCreate := mkCategoryCreate "books" Unset.
Definition novels : CategoryCreate := mkCategoryCreate "novels" (Given (Some 1)).
Definition novel : ProductCreate := mkProductCreate "novel" "a novel" 10%Q 2.
Definition reprint : ProductCreate := mkProductCreate "reprint" "again" 12%Q 2.

(** Two categories, the second a child of the first, one product of seller 7
    in the second, and two reviews of it with the grades 4 and 5. *)
Definition shop_session : list request :=
  [ CreateCategory books;
    CreateCategory novels;
    CreateProduct novel seller7;
    CreateReview 100 (mkReviewCreate 1 None 4) buyer8;
    CreateReview 101 (mkReviewCreate 1 (Some "good") 5) buyer8 ].

Definition shop : DB := serve shop_session empty_db.

(** The shop after seller 7 has soft-deleted the product. *)
Definition closed_shop : DB := app (DeleteProduct 1 seller7) shop.

(** The shop after the first category has been soft-deleted. *)
Definition orphaned_shop : DB := app (DeleteCategory 1) shop.

(** The product of the shop, as stored after the two reviews. *)
Definition stored_novel : ProductModel :=
  mkProduct "novel" "a novel" 10%Q 2 7 (9 # 2)%Q true.

(** A database whose only category has been soft-deleted, and a payload
    that names that category as its own parent. *)
Definition retired_shop : DB :=
  serve [CreateCategory books; DeleteCategory 1] empty_db.

Definition own_parent : CategoryCreate :=
  mkCategoryCreate "books" (Given (Some 1)).

(** The shop before the first review. *)
Definition unreviewed_shop : DB :=
  serve [CreateCategory books; CreateCategory novels;
         CreateProduct novel seller7] empty_db.

(** ** The middleware: [app/main.py] *)

Inductive level := INFO | WARNING | ERROR.

(** What [call_next] comes back with: the response of the route (an
    [HTTPException] has become a response with its status by then), or an
    exception that nothing has caught, with its text. *)
Inductive outcome (B : Type) :=
| Responded (status : Z) (body : B)
| Failed (ex : string).
Arguments Responded {B} status body.
Arguments Failed {B} ex.

(** The body that leaves the middleware: the one of the route, or
    [JSONResponse(content={"success": False})]. *)
Inductive sent (B : Type) :=
| Passed (body : B)
| SuccessFalse.
Arguments Passed {B} body.
Arguments SuccessFalse {B}.

(** [log_middleware]: the log record (level and message) and the response
    (status and body).  The [log_id] of the record is a fresh uuid and is
    left out. *)
Definition log_middleware {B} (path : string) (call_next : outcome B)
  : (level * string) * (Z * sent B) :=
  match call_next with
  | Responded status body =>
      (if bool_decide (status ∈ [401; 402; 403; 404])
       then (WARNING, "Request to " +:+ path +:+ " failed")
       else (INFO, "Successfully accessed " +:+ path),
       (status, Passed body))
  | Failed ex =>
      ((ERROR, "Request to " +:+ path +:+ " failed: " +:+ ex),
       (500, SuccessFalse))
  end.

(** The outcome of a route for the middleware: the status of the decorator
    on success, the status of the [HTTPException] on a raise. *)
Definition call_next {A} (success : Z) (ex : string) (r : response A)
  : outcome (A + string) :=
  match r with
  | Return a => Responded success (inl a)
  | Raise e => Responded (status_code e) (inr (detail e))
  | Unhandled => Failed ex
  end.

(** ** How rows change over time *)

Definition category_evolves (c c' : CategoryModel) : Prop :=
  c_is_active c = false → c_is_active c' = false.

Definition product_evolves (p p' : ProductModel) : Prop :=
  p_seller_id p' = p_seller_id p ∧
  (p_is_active p = false → p_is_active p' = false).

Definition review_evolves (r r' : ReviewModel) : Prop :=
  review_fields r' = review_fields r ∧
  (r_is_active r = false → r_is_active r' = false).

Definition table_evolves {A} (R : A → A → Prop) (t t' : gmap Z A) : Prop :=
  ∀ id row, t !! id = Some row → ∃ row', t' !! id = Some row' ∧ R row row'.

Definition evolves (db db' : DB) : Prop :=
  table_evolves category_evolves (categories db) (categories db') ∧
  table_evolves product_evolves (products db) (products db') ∧
  table_evolves review_evolves (reviews db) (reviews db').

(** Every stored grade is one of 1..5. *)
Definition grades_in_range (db : DB) : Prop :=
  ∀ id r, reviews db !! id = Some r → 1 ≤ r_grade r ≤ 5.

(** The foreign key of [products.category_id]. *)
Definition products_refer_to_categories (db : DB) : Prop :=
  ∀ id p, products db !! id = Some p →
          is_Some (categories db !! p_category_id p).

(** A database with a review of a product that has no row. *)
Definition stray_review : ReviewModel := mkReview 8 5 None 100 4 true.

Definition stray_db : DB := mkDB ∅ ∅ {[1 := stray_review]}.

(** * Properties *)

(** ** Tables *)

Section tables.
Context {A : Type}.
Implicit Types (t : gmap Z A) (is_active : A → bool).

Lemma max_id_ge t k row : t !! k = Some row → k ≤ max_id t.
Proof.
  intros Hk. apply elem_of_map_to_list in Hk. unfold max_id.
  induction (map_to_list t) as [|x l IH]; [by apply elem_of_nil in Hk|].
  apply elem_of_cons in Hk as [<- | Hk]; simpl; [lia|].
  specialize (IH Hk). lia.
Qed.

Lemma next_id_fresh t : t !! next_id t = None.
Proof.
  destruct (t !! next_id t) as [row|] eqn:Hk; [|done].
  apply max_id_ge in Hk. unfold next_id in Hk. lia.
Qed.

Lemma select_active_Some is_active t id row :
  select_active is_active t id = Some row ↔
  t !! id = Some row ∧ is_active row = true.
Proof.
  unfold select_active. destruct (t !! id) as [row'|].
  - destruct (is_active row') eqn:Hact; split.
    + by intros [= <-].
    + by intros [[= <-] _].
    + done.
    + intros [[= <-] Hrow]. congruence.
  - split; [done | by intros [? _]].
Qed.

Lemma select_active_None is_active t id :
  select_active is_active t id = None ↔
  ∀ row, t !! id = Some row → is_active row = false.
Proof.
  unfold select_active. destruct (t !! id) as [row'|].
  - destruct (is_active row') eqn:Hact; split.
    + done.
    + intros Hrow. specialize (Hrow row' eq_refl). congruence.
    + by intros _ row [= <-].
    + done.
  - split; [by intros _ row | done].
Qed.

Lemma elem_of_select_all (P : Z * A → Prop) `{∀ x, Decision (P x)} t id row :
  (id, row) ∈ select_all P t ↔ t !! id = Some row ∧ P (id, row).
Proof.
  unfold select_all. rewrite list_elem_of_filter, elem_of_map_to_list.
  tauto.
Qed.
End tables.

(** ** The mean and the grades of a product *)

Lemma sum_grades_perm l l' : l ≡ₚ l' → sum_grades l = sum_grades l'.
Proof.
  induction 1 as [|x l l' _ IH|x y l|l l' l'' _ IH1 _ IH2]; simpl in *; lia.
Qed.

Lemma expected_rating_perm l l' :
  l ≡ₚ l' → expected_rating l = expected_rating l'.
Proof.
  intros Hp. destruct l as [|x l], l' as [|x' l'].
  - done.
  - by apply Permutation_nil_cons in Hp.
  - symmetry in Hp. by apply Permutation_nil_cons in Hp.
  - unfold expected_rating, mean.
    by rewrite (sum_grades_perm _ _ Hp), (Permutation_length Hp).
Qed.

Lemma or_zero_avg l : (or_zero (avg l) == expected_rating l)%Q.
Proof.
  destruct l as [|x l]; simpl; [reflexivity|].
  destruct (Qeq_bool _ 0) eqn:Hz; [|reflexivity].
  symmetry. by apply Qeq_bool_eq.
Qed.

Lemma active_grades_reviews product_id db db' :
  reviews db = reviews db' →
  active_grades product_id db = active_grades product_id db'.
Proof. unfold active_grades, active_reviews. by intros ->. Qed.

Lemma active_reviews_insert product_id id r db :
  reviews db !! id = None →
  active_reviews product_id (set_reviews (<[id := r]> (reviews db)) db)
  ≡ₚ review_if product_id id r ++ active_reviews product_id db.
Proof.
  intros Hid. unfold active_reviews, select_all, review_if. simpl.
  rewrite map_to_list_insert by done. rewrite filter_cons. simpl.
  by case_decide.
Qed.

Lemma active_reviews_replace product_id id r0 r db :
  reviews db !! id = Some r0 →
  ∃ rest,
    active_reviews product_id db ≡ₚ review_if product_id id r0 ++ rest ∧
    active_reviews product_id (set_reviews (<[id := r]> (reviews db)) db)
    ≡ₚ review_if product_id id r ++ rest.
Proof.
  intros Hid.
  exists (active_reviews product_id (set_reviews (delete id (reviews db)) db)).
  split.
  - rewrite <- (active_reviews_insert product_id id r0) by apply lookup_delete_eq.
    simpl. rewrite insert_delete_id by done. by destruct db.
  - rewrite <- (active_reviews_insert product_id id r) by apply lookup_delete_eq.
    simpl. by rewrite insert_delete_eq.
Qed.

Lemma review_if_other k id r : r_product_id r ≠ k → review_if k id r = [].
Proof. intros Hne. unfold review_if. case_decide; [|done]. tauto. Qed.

Lemma review_if_inactive k id r : r_is_active r = false → review_if k id r = [].
Proof.
  intros Hact. unfold review_if. case_decide as Hc; [|done].
  destruct Hc as [_ Hc]. congruence.
Qed.

(** A write to a review of another product leaves the active reviews of [k]
    as they are, up to their order. *)
Lemma active_reviews_insert_other k id r db :
  reviews db !! id = None → r_product_id r ≠ k →
  active_reviews k (set_reviews (<[id := r]> (reviews db)) db)
  ≡ₚ active_reviews k db.
Proof.
  intros Hid Hne. rewrite active_reviews_insert by done.
  by rewrite review_if_other.
Qed.

Lemma active_reviews_replace_other k id r0 r db :
  reviews db !! id = Some r0 → r_product_id r0 ≠ k → r_product_id r ≠ k →
  active_reviews k (set_reviews (<[id := r]> (reviews db)) db)
  ≡ₚ active_reviews k db.
Proof.
  intros Hid Hne0 Hne.
  destruct (active_reviews_replace k id r0 r db Hid) as (rest & Hold & Hnew).
  rewrite Hold, Hnew. by rewrite !review_if_other.
Qed.

Lemma active_grades_perm k db db' :
  active_reviews k db ≡ₚ active_reviews k db' →
  active_grades k db ≡ₚ active_grades k db'.
Proof. unfold active_grades. by intros ->. Qed.

Lemma active_grades_none product_id db :
  (∀ id r, reviews db !! id = Some r → r_product_id r ≠ product_id) →
  active_grades product_id db = [].
Proof.
  intros Hno. unfold active_grades, active_reviews.
  destruct (select_all _ _) as [|[id r] l] eqn:Hl; [done|].
  assert ((id, r) ∈ (id, r) :: l) as Hin by left.
  rewrite <- Hl in Hin. apply elem_of_select_all in Hin as [Hr [Hp _]].
  by apply Hno in Hr.
Qed.

(** ** The rating invariant, handler by handler *)

Lemma update_product_rating_Some db product_id p :
  products db !! product_id = Some p →
  update_product_rating db product_id =
  Some (set_products
          (<[product_id :=
               set_rating (or_zero (avg (active_grades product_id db))) p]>
             (products db)) db).
Proof. unfold update_product_rating. by intros ->. Qed.

Lemma consistent_empty : consistent empty_db.
Proof.
  split; [intros id r Hr | intros k p Hp]; simpl in *;
    [by rewrite lookup_empty in Hr | by rewrite lookup_empty in Hp].
Qed.

(** Writes to the categories only. *)
Lemma consistent_set_categories t db :
  consistent db → consistent (set_categories t db).
Proof. by intros [Hfk Hok]. Qed.

(** Writes to the products that keep every row and its rating, and give new
    rows the rating 0. *)
Lemma consistent_set_products t db :
  consistent db →
  (∀ k, is_Some (products db !! k) → is_Some (t !! k)) →
  (∀ k p', t !! k = Some p' →
           match products db !! k with
           | Some p => p_rating p' = p_rating p
           | None => p_rating p' = 0%Q
           end) →
  consistent (set_products t db).
Proof.
  intros [Hfk Hok] Hkeys Hrat. split.
  - intros id r Hr. apply Hkeys. by apply (Hfk id).
  - intros k p' Hp'. simpl in Hp'. specialize (Hrat k p' Hp').
    rewrite (active_grades_reviews k _ db) by done.
    destruct (products db !! k) as [p|] eqn:Hp.
    + rewrite Hrat. by apply Hok.
    + rewrite Hrat, active_grades_none; [reflexivity|].
      intros id r Hr <-. apply Hfk in Hr as [? Hr]. congruence.
Qed.

(** The recomputation restores the invariant at the one product whose reviews
    have changed. *)
Lemma recompute_consistent db product_id p :
  products db !! product_id = Some p →
  reviews_refer_to_products db →
  (∀ k, k ≠ product_id → rating_ok db k) →
  consistent
    (set_products
       (<[product_id :=
            set_rating (or_zero (avg (active_grades product_id db))) p]>
          (products db)) db).
Proof.
  intros Hp Hfk Hok. split.
  - intros id r Hr. simpl in *.
    destruct (decide (product_id = r_product_id r)) as [<-|Hne].
    + rewrite lookup_insert_eq. eauto.
    + rewrite lookup_insert_ne by done. eauto.
  - intros k q. simpl. rewrite (active_grades_reviews k _ db) by done.
    destruct (decide (product_id = k)) as [<-|Hne].
    + rewrite lookup_insert_eq. intros [= <-]. simpl. apply or_zero_avg.
    + rewrite lookup_insert_ne by done. by apply Hok.
Qed.

Lemma rating_ok_set_reviews t db k :
  rating_ok db k →
  active_grades k (set_reviews t db) ≡ₚ active_grades k db →
  rating_ok (set_reviews t db) k.
Proof.
  intros Hok Hperm p Hp. rewrite (expected_rating_perm _ _ Hperm).
  by apply Hok.
Qed.

Lemma create_category_consistent category db :
  consistent db → consistent (create_category category db).1.
Proof.
  intros Hc. unfold create_category.
  destruct (parent_id category) as [pid|]; [|by apply consistent_set_categories].
  destruct (select_active _ _ pid); [by apply consistent_set_categories | done].
Qed.

Lemma update_category_consistent category_id category db :
  consistent db → consistent (update_category category_id category db).1.
Proof.
  intros Hc. unfold update_category.
  destruct (select_active _ _ category_id); [|done].
  destruct (parent_id category) as [pid|]; [|by apply consistent_set_categories].
  destruct (select_active _ _ pid); [|done].
  case_decide; [done | by apply consistent_set_categories].
Qed.

Lemma delete_category_consistent category_id db :
  consistent db → consistent (delete_category category_id db).1.
Proof.
  intros Hc. unfold delete_category.
  destruct (select_active _ _ category_id); [|done].
  by apply consistent_set_categories.
Qed.

Lemma create_product_consistent product user db :
  consistent db → consistent (create_product product user db).1.
Proof.
  intros Hc. unfold create_product.
  destruct (select_active _ _ _); [|done]. simpl.
  apply consistent_set_products; [done | |].
  - intros k [p Hp]. destruct (decide (next_id (products db) = k)) as [<-|Hne].
    + rewrite lookup_insert_eq. eauto.
    + rewrite lookup_insert_ne by done. eauto.
  - intros k p'. destruct (decide (next_id (products db) = k)) as [<-|Hne].
    + rewrite lookup_insert_eq, next_id_fresh. by intros [= <-].
    + rewrite lookup_insert_ne by done. by intros ->.
Qed.

(** A write to one existing product that leaves its rating alone. *)
Lemma consistent_rewrite_product f product_id p db :
  consistent db →
  products db !! product_id = Some p →
  p_rating (f p) = p_rating p →
  consistent (set_products (<[product_id := f p]> (products db)) db).
Proof.
  intros Hc Hp Hf. apply consistent_set_products; [done | |].
  - intros k Hk. destruct (decide (product_id = k)) as [<-|Hne].
    + rewrite lookup_insert_eq. eauto.
    + by rewrite lookup_insert_ne.
  - intros k p'. destruct (decide (product_id = k)) as [<-|Hne].
    + rewrite lookup_insert_eq, Hp. by intros [= <-].
    + rewrite lookup_insert_ne by done. by intros ->.
Qed.

Lemma update_product_consistent product_id product user db :
  consistent db → consistent (update_product product_id product user db).1.
Proof.
  intros Hc. unfold update_product.
  destruct (products db !! product_id) as [p|] eqn:Hp; [|done].
  case_decide; [done|].
  destruct (select_active _ _ _); [|done]. simpl.
  by apply (consistent_rewrite_product (product_values product)).
Qed.

Lemma delete_product_consistent product_id user db :
  consistent db → consistent (delete_product product_id user db).1.
Proof.
  intros Hc. unfold delete_product.
  destruct (select_active _ _ _) as [p|] eqn:Hp; [|done].
  apply select_active_Some in Hp as [Hp _].
  case_decide; [done|]. simpl.
  by apply (consistent_rewrite_product deactivate_product).
Qed.

Lemma create_review_consistent now review user db :
  consistent db → consistent (create_review now review user db).1.
Proof.
  intros [Hfk Hok]. unfold create_review.
  destruct (select_active _ _ _) as [p|] eqn:Hp; [|done].
  apply select_active_Some in Hp as [Hp _].
  case_decide; [done|].
  set (new_review := mkReview _ _ _ _ _ _).
  set (db1 := set_reviews _ db).
  rewrite (update_product_rating_Some db1 _ p) by done. cbn [fst].
  apply (recompute_consistent db1); [done | |].
  - intros id r. simpl.
    destruct (decide (next_id (reviews db) = id)) as [<-|Hne].
    + rewrite lookup_insert_eq. intros [= <-]. simpl. eauto.
    + rewrite lookup_insert_ne by done. apply Hfk.
  - intros k Hne. apply rating_ok_set_reviews; [done|].
    apply active_grades_perm, active_reviews_insert_other;
      [apply next_id_fresh | simpl; congruence].
Qed.

Lemma delete_review_consistent review_id user db :
  consistent db → consistent (delete_review review_id user db).1.
Proof.
  intros [Hfk Hok]. unfold delete_review.
  destruct (select_active _ _ _) as [r|] eqn:Hr; [|done].
  apply select_active_Some in Hr as [Hr _].
  destruct (Hfk _ _ Hr) as [p Hp].
  set (db1 := set_reviews _ db).
  rewrite (update_product_rating_Some db1 _ p) by done. cbn [fst].
  apply (recompute_consistent db1); [done | |].
  - intros id r'. simpl.
    destruct (decide (review_id = id)) as [<-|Hne].
    + rewrite lookup_insert_eq. intros [= <-]. simpl. eauto.
    + rewrite lookup_insert_ne by done. apply Hfk.
  - intros k Hne. apply rating_ok_set_reviews; [done|].
    apply active_grades_perm, (active_reviews_replace_other k review_id r);
      [done | congruence | simpl; congruence].
Qed.

Lemma app_consistent req db : consistent db → consistent (app req db).
Proof.
  intros Hc. destruct req; simpl; unfold requires;
    try destruct (has_role _ _); try done;
    auto using create_category_consistent, update_category_consistent,
      delete_category_consistent, create_product_consistent,
      update_product_consistent, delete_product_consistent,
      create_review_consistent, delete_review_consistent.
Qed.

Lemma serve_consistent reqs db : consistent db → consistent (serve reqs db).
Proof.
  revert db. induction reqs as [|req reqs IH]; intros db Hc; [done|].
  simpl. by apply IH, app_consistent.
Qed.

(** ** The category invariant, handler by handler *)

Lemma category_active_lookup db id :
  category_active db id ↔
  ∃ c, categories db !! id = Some c ∧ c_is_active c = true.
Proof.
  unfold category_active. split.
  - intros [c Hc]. exists c. by apply select_active_Some.
  - intros (c & Hc). exists c. by apply select_active_Some.
Qed.

Lemma category_inv_categories db db' :
  categories db' = categories db → category_inv db → category_inv db'.
Proof.
  unfold category_inv, parent_ok, category_active. by intros ->.
Qed.

Lemma category_refs_categories db db' :
  categories db' = categories db → category_refs db → category_refs db'.
Proof.
  unfold category_refs, parent_exists. by intros ->.
Qed.

(** Writing one row of the categories keeps the invariant when the new row
    has a fit parent and stays active if it is the parent of another row. *)
Lemma category_inv_insert db cid row :
  category_inv db →
  parent_ok db cid row →
  (c_is_active row = true ∨ childless db cid) →
  category_inv (set_categories (<[cid := row]> (categories db)) db).
Proof.
  intros Hinv Hrow Hchild k c Hk. simpl in Hk.
  assert (∀ pid, pid ≠ cid → category_active db pid →
            category_active (set_categories (<[cid := row]> (categories db)) db)
                            pid) as Hkeep.
  { intros pid Hne. rewrite !category_active_lookup. simpl.
    by rewrite lookup_insert_ne. }
  destruct (decide (cid = k)) as [<-|Hne].
  - rewrite lookup_insert_eq in Hk. injection Hk as <-.
    unfold parent_ok in *. destruct (c_parent_id row) as [pid|]; [|done].
    destruct Hrow as [Hne Hact]. auto.
  - rewrite lookup_insert_ne in Hk by done.
    specialize (Hinv k c Hk). unfold parent_ok in *.
    destruct (c_parent_id c) as [pid|] eqn:Hpar; [|done].
    destruct Hinv as [Hpk Hact]. split; [done|].
    destruct (decide (pid = cid)) as [->|Hpc]; [|auto].
    destruct Hchild as [Hrowact | Hnone].
    + apply category_active_lookup. exists row. simpl.
      by rewrite lookup_insert_eq.
    + by specialize (Hnone k c Hk).
Qed.

Lemma category_refs_insert db cid row :
  category_refs db →
  parent_exists db cid row →
  category_refs (set_categories (<[cid := row]> (categories db)) db).
Proof.
  intros Hinv Hrow k c Hk. simpl in Hk.
  assert (∀ pid, is_Some (categories db !! pid) →
                 is_Some (<[cid := row]> (categories db) !! pid)) as Hkeep.
  { intros pid Hpid. destruct (decide (cid = pid)) as [<-|Hne].
    - rewrite lookup_insert_eq. eauto.
    - by rewrite lookup_insert_ne. }
  destruct (decide (cid = k)) as [<-|Hne].
  - rewrite lookup_insert_eq in Hk. injection Hk as <-.
    unfold parent_exists in *. destruct (c_parent_id row) as [pid|]; [|done].
    destruct Hrow as [Hne Hex]. simpl. auto.
  - rewrite lookup_insert_ne in Hk by done.
    specialize (Hinv k c Hk). unfold parent_exists in *.
    destruct (c_parent_id c) as [pid|]; [|done].
    destruct Hinv as [Hpk Hex]. simpl. auto.
Qed.

Lemma parent_ok_exists db id c : parent_ok db id c → parent_exists db id c.
Proof.
  unfold parent_ok, parent_exists. destruct (c_parent_id c) as [pid|]; [|done].
  intros [Hne Hact]. split; [done|].
  apply category_active_lookup in Hact as (c' & Hc' & _). eauto.
Qed.

(** The row that [create_category] and [update_category] write has passed
    the parent check. *)
Lemma checked_parent_ok db id name parent act :
  match parent with
  | Some pid => category_active db pid ∧ pid ≠ id
  | None => True
  end →
  parent_ok db id (mkCategory name parent act).
Proof. unfold parent_ok. simpl. destruct parent; tauto. Qed.

Lemma create_category_inv category db :
  category_inv db → category_inv (create_category category db).1.
Proof.
  intros Hinv. unfold create_category.
  assert (∀ pid, category_active db pid → pid ≠ next_id (categories db))
    as Hfresh.
  { intros pid Hact ->. apply category_active_lookup in Hact as (c & Hc & _).
    by rewrite next_id_fresh in Hc. }
  destruct (parent_id category) as [pid|] eqn:Hpar.
  - destruct (select_active _ _ pid) as [parent|] eqn:Hsel; [|done]. simpl.
    apply category_inv_insert; [done | | by left].
    apply checked_parent_ok. split; [|apply Hfresh]; by exists parent.
  - simpl. apply category_inv_insert; [done | | by left].
    by apply checked_parent_ok.
Qed.

Lemma create_category_refs category db :
  category_refs db → category_refs (create_category category db).1.
Proof.
  intros Hinv. unfold create_category.
  destruct (parent_id category) as [pid|] eqn:Hpar.
  - destruct (select_active _ _ pid) as [parent|] eqn:Hsel; [|done]. simpl.
    apply category_refs_insert; [done|].
    unfold parent_exists. simpl.
    apply select_active_Some in Hsel as [Hsel _]. split; [|eauto].
    intros ->. by rewrite next_id_fresh in Hsel.
  - simpl. by apply category_refs_insert.
Qed.

Lemma update_category_inv category_id category db :
  category_inv db → category_inv (update_category category_id category db).1.
Proof.
  intros Hinv. unfold update_category.
  destruct (select_active _ _ category_id) as [c0|] eqn:Hc0; [|done].
  apply select_active_Some in Hc0 as [Hc0 Hact0].
  pose proof (Hinv _ _ Hc0) as Hold.
  assert (parent_id category = None →
          parent_ok db category_id (category_values category c0)) as Hnone.
  { unfold parent_id, category_values, parent_ok in *. simpl.
    destruct (cc_parent_id category) as [|v]; [done | by intros ->]. }
  destruct (parent_id category) as [pid|] eqn:Hpar.
  - destruct (select_active _ _ pid) as [parent|] eqn:Hsel; [|done].
    case_decide as Hself; [done|]. simpl.
    apply category_inv_insert; [done | | by left].
    unfold parent_id in Hpar. unfold category_values, parent_ok. simpl.
    destruct (cc_parent_id category) as [|v]; [done|]. subst v.
    split; [done | by exists parent].
  - simpl. apply category_inv_insert; [done | by apply Hnone | by left].
Qed.

Lemma update_category_refs category_id category db :
  category_refs db → category_refs (update_category category_id category db).1.
Proof.
  intros Hinv. unfold update_category.
  destruct (select_active _ _ category_id) as [c0|] eqn:Hc0; [|done].
  apply select_active_Some in Hc0 as [Hc0 Hact0].
  pose proof (Hinv _ _ Hc0) as Hold.
  destruct (parent_id category) as [pid|] eqn:Hpar.
  - destruct (select_active _ _ pid) as [parent|] eqn:Hsel; [|done].
    case_decide as Hself; [done|]. simpl.
    apply category_refs_insert; [done|].
    unfold parent_id in Hpar. unfold category_values, parent_exists. simpl.
    destruct (cc_parent_id category) as [|v]; [done|]. subst v.
    apply select_active_Some in Hsel as [Hsel _]. eauto.
  - simpl. apply category_refs_insert; [done|].
    unfold parent_id, category_values, parent_exists in *. simpl.
    destruct (cc_parent_id category) as [|v]; [done | by subst v].
Qed.

Lemma delete_category_inv category_id db :
  category_inv db → childless db category_id →
  category_inv (delete_category category_id db).1.
Proof.
  intros Hinv Hleaf. unfold delete_category.
  destruct (select_active _ _ category_id) as [c0|] eqn:Hc0; [|done].
  apply select_active_Some in Hc0 as [Hc0 _]. simpl.
  apply category_inv_insert; [done | | by right].
  apply (Hinv _ _ Hc0).
Qed.

Lemma delete_category_refs category_id db :
  category_refs db → category_refs (delete_category category_id db).1.
Proof.
  intros Hinv. unfold delete_category.
  destruct (select_active _ _ category_id) as [c0|] eqn:Hc0; [|done].
  apply select_active_Some in Hc0 as [Hc0 _]. simpl.
  apply category_refs_insert; [done|]. apply (Hinv _ _ Hc0).
Qed.

(** The product and review handlers do not write to the categories. *)
Lemma update_product_rating_categories db product_id db' :
  update_product_rating db product_id = Some db' →
  categories db' = categories db.
Proof.
  unfold update_product_rating.
  destruct (products db !! product_id); [|done]. by intros [= <-].
Qed.

Lemma app_categories req db :
  match req with
  | CreateCategory _ | UpdateCategory _ _ | DeleteCategory _ => True
  | _ => categories (app req db) = categories db
  end.
Proof.
  destruct req; simpl; try done; unfold requires;
    destruct (has_role _ _); try done.
  - unfold create_product. by destruct (select_active _ _ _).
  - unfold update_product. destruct (products db !! _); [|done].
    case_decide; [done|]. by destruct (select_active _ _ _).
  - unfold delete_product. destruct (select_active _ _ _); [|done].
    by case_decide.
  - unfold create_review. destruct (select_active _ _ _); [|done].
    case_decide; [done|].
    destruct (update_product_rating _ _) as [db2|] eqn:Hup; [|done].
    by apply update_product_rating_categories in Hup.
  - unfold delete_review. destruct (select_active _ _ _); [|done].
    destruct (update_product_rating _ _) as [db2|] eqn:Hup; [|done].
    by apply update_product_rating_categories in Hup.
Qed.

(** * The claims *)

(** ** C1: the rating of a product *)

(** C1.  In a database where the rating of every product is the arithmetic
    mean of the grades of its active reviews, or 0 if it has none (and every
    review is the review of a product of the database), this is so again
    after every request, and so after every sequence of requests; the empty
    database is such a database. *)
Theorem rating_is_mean_of_active_reviews reqs db product_id p :
  consistent db →
  products (serve reqs db) !! product_id = Some p →
  (p_rating p == expected_rating (active_grades product_id (serve reqs db)))%Q.
Proof.
  intros Hc Hp. by apply (serve_consistent reqs db Hc).
Qed.

Lemma rating_is_mean_of_active_reviews_witness :
  products shop !! 1 = Some stored_novel ∧
  active_grades 1 shop = [5; 4] ∧
  (p_rating stored_novel == expected_rating (active_grades 1 shop))%Q.
Proof.
  split; [by vm_compute|]. split; [by vm_compute|].
  apply (rating_is_mean_of_active_reviews shop_session empty_db 1 stored_novel).
  - split.
    + intros id r Hr. vm_compute in Hr. discriminate Hr.
    + intros k p Hp. vm_compute in Hp. discriminate Hp.
  - by vm_compute.
Defined.

(** ** C2: the category invariant *)

(** In the sample shop the second category is a child of the first; the
    invariant holds there and fails once the first has been soft-deleted. *)
Lemma soft_delete_of_parent_breaks_category_inv :
  category_inv shop ∧ ¬ category_inv (app (DeleteCategory 1) shop).
Proof.
  split.
  - apply (bool_decide_unpack _). by vm_compute.
  - apply (bool_decide_eq_false_1 _). by vm_compute.
Qed.

(** C2, amended.  Every request keeps the category invariant (no category is
    its own parent, every parent that is set is an active category), except
    the soft-delete of a category that is the parent of another one: that
    request leaves the children as they are, pointing to the category that is
    now inactive.  What every request keeps is that no category is its own
    parent and that every parent that is set is a row of the table. *)
Theorem category_inv_preserved req db :
  (category_inv db →
   (∀ category_id, req = DeleteCategory category_id → childless db category_id) →
   category_inv (app req db)) ∧
  (category_refs db → category_refs (app req db)).
Proof.
  split.
  - intros Hinv Hleaf. pose proof (app_categories req db) as Hcat.
    destruct req;
      try (by apply (category_inv_categories db));
      simpl.
    + by apply create_category_inv.
    + by apply update_category_inv.
    + apply delete_category_inv; [done|]. by apply Hleaf.
  - intros Hinv. pose proof (app_categories req db) as Hcat.
    destruct req;
      try (by apply (category_refs_categories db));
      simpl.
    + by apply create_category_refs.
    + by apply update_category_refs.
    + by apply delete_category_refs.
Qed.

Lemma category_inv_preserved_witness :
  category_inv (app (DeleteCategory 2) shop) ∧
  category_refs (app (DeleteCategory 1) shop).
Proof.
  split.
  - apply (proj1 (category_inv_preserved (DeleteCategory 2) shop)).
    + apply (bool_decide_unpack _). by vm_compute.
    + intros category_id [= <-]. apply (bool_decide_unpack _). by vm_compute.
  - apply (proj2 (category_inv_preserved (DeleteCategory 1) shop)).
    apply (bool_decide_unpack _). by vm_compute.
Defined.

(** ** C3: lookups and soft-deleted rows *)

(** What the lookups with the [is_active] condition do: a soft-deleted row
    is as good as a missing one. *)
Lemma select_active_inactive {A} (is_active : A → bool) t id row :
  t !! id = Some row → is_active row = false →
  select_active is_active t id = None.
Proof. intros Hrow Hact. unfold select_active. by rewrite Hrow, Hact. Qed.

Lemma soft_deleted_parent_refused category db pid c :
  parent_id category = Some pid →
  categories db !! pid = Some c → c_is_active c = false →
  create_category category db =
    (db, raise HTTP_400_BAD_REQUEST "Parent category not found") ∧
  ∀ category_id,
    (update_category category_id category db).1 = db ∧
    ∃ e, (update_category category_id category db).2 = Raise e.
Proof.
  intros Hpar Hc Hact.
  pose proof (select_active_inactive c_is_active _ _ _ Hc Hact) as Hsel.
  split.
  - unfold create_category. by rewrite Hpar, Hsel.
  - intros category_id. unfold update_category.
    destruct (select_active _ _ category_id); [|by eauto].
    rewrite Hpar, Hsel. by eauto.
Qed.

Lemma soft_deleted_category_refused product user db c :
  categories db !! pc_category_id product = Some c → c_is_active c = false →
  create_product product user db =
    (db, raise HTTP_400_BAD_REQUEST "Category not found") ∧
  ∀ product_id,
    (update_product product_id product user db).1 = db ∧
    ∃ e, (update_product product_id product user db).2 = Raise e.
Proof.
  intros Hc Hact.
  pose proof (select_active_inactive c_is_active _ _ _ Hc Hact) as Hsel.
  split.
  - unfold create_product. by rewrite Hsel.
  - intros product_id. unfold update_product.
    destruct (products db !! product_id); [|by eauto].
    case_decide; [by eauto|]. rewrite Hsel. by eauto.
Qed.

(** C3.  The lookup of [update_product] has no [is_active] condition: the
    owner's update of the soft-deleted product of [closed_shop] is not
    answered with NotFound; it succeeds and overwrites the row. *)
Theorem update_product_finds_soft_deleted :
  p_is_active <$> products closed_shop !! 1 = Some false ∧
  update_product 1 reprint seller7 closed_shop =
    (set_products
       (<[1 := mkProduct "reprint" "again" 12%Q 2 7 (9 # 2)%Q false]>
          (products closed_shop)) closed_shop,
     Return (1, mkProduct "reprint" "again" 12%Q 2 7 (9 # 2)%Q false)) ∧
  ¬ fails_with NotFound (update_product 1 reprint seller7 closed_shop).2 ∧
  fails_with NotFound (delete_product 1 seller7 closed_shop).2 ∧
  fails_with NotFound (get_product 1 closed_shop).
Proof.
  split; [by vm_compute|]. split; [by vm_compute|]. split; [|split].
  - intros (e & He & _). vm_compute in He. discriminate He.
  - eexists. split; [by vm_compute | done].
  - eexists. split; [by vm_compute | done].
Qed.

(** ** C4: a category as its own parent *)

(** The target is looked up, with [is_active], before the parent. *)
Lemma self_parent_of_soft_deleted_category_is_not_found :
  (∃ c, categories retired_shop !! 1 = Some c) ∧
  parent_id own_parent = Some 1 ∧
  (update_category 1 own_parent retired_shop).2 =
    raise HTTP_404_NOT_FOUND "Category not found" ∧
  ¬ fails_with InvalidSelfReference (update_category 1 own_parent retired_shop).2.
Proof.
  split; [eexists; by vm_compute|]. split; [done|]. split; [by vm_compute|].
  intros (e & He & Hself). vm_compute in He. injection He as <-.
  discriminate Hself.
Qed.

(** C4, amended.  For every active category C, the update of C with
    parentId = C.id fails with InvalidSelfReference; for a soft-deleted C it
    fails with NotFound.  In both cases nothing is written. *)
Theorem update_category_own_parent db category_id c category :
  categories db !! category_id = Some c →
  parent_id category = Some category_id →
  (update_category category_id category db).1 = db ∧
  fails_with (if c_is_active c then InvalidSelfReference else NotFound)
             (update_category category_id category db).2.
Proof.
  intros Hc Hpar. unfold update_category, select_active.
  rewrite Hpar, Hc. destruct (c_is_active c) eqn:Hact.
  - rewrite decide_True by done. split; [done|]. by eexists.
  - split; [done|]. by eexists.
Qed.

Lemma update_category_own_parent_witness :
  (update_category 1 own_parent shop).1 = shop ∧
  fails_with InvalidSelfReference (update_category 1 own_parent shop).2.
Proof.
  apply (update_category_own_parent shop 1 (mkCategory "books" None true)
                                    own_parent).
  - by vm_compute.
  - reflexivity.
Defined.

(** ** C5: the seller who does not own the product *)

(** The soft-delete looks the product up with [is_active] before it looks
    at the owner. *)
Lemma non_owner_delete_of_soft_deleted_product_is_not_found :
  p_seller_id <$> products closed_shop !! 1 = Some 7 ∧
  u_id seller9 ≠ 7 ∧
  (delete_product 1 seller9 closed_shop).2 =
    raise HTTP_404_NOT_FOUND "Product not found" ∧
  ¬ fails_with Forbidden (delete_product 1 seller9 closed_shop).2.
Proof.
  split; [by vm_compute|]. split; [done|]. split; [by vm_compute|].
  intros (e & He & Hforb). vm_compute in He. injection He as <-.
  discriminate Hforb.
Qed.

(** C5, amended.  For every product P and every seller S who does not own
    it, the update of P by S fails with Forbidden, whatever the payload and
    whether P is active or not; the soft-delete of P by S fails with
    Forbidden if P is active and with NotFound if P is soft-deleted.
    Nothing is written in either case. *)
Theorem non_owner_is_refused db product_id p user product :
  products db !! product_id = Some p →
  p_seller_id p ≠ u_id user →
  (update_product product_id product user db).1 = db ∧
  fails_with Forbidden (update_product product_id product user db).2 ∧
  (delete_product product_id user db).1 = db ∧
  fails_with (if p_is_active p then Forbidden else NotFound)
             (delete_product product_id user db).2.
Proof.
  intros Hp Hne. unfold update_product, delete_product, select_active.
  rewrite Hp, decide_True by done.
  split; [done|]. split; [by eexists|].
  destruct (p_is_active p).
  - rewrite decide_True by done. split; [done | by eexists].
  - split; [done | by eexists].
Qed.

Lemma non_owner_is_refused_witness :
  (update_product 1 (mkProductCreate "mine" "now" 1%Q 99) seller9 shop).1 = shop ∧
  fails_with Forbidden
    (update_product 1 (mkProductCreate "mine" "now" 1%Q 99) seller9 shop).2 ∧
  (delete_product 1 seller9 shop).1 = shop ∧
  fails_with Forbidden (delete_product 1 seller9 shop).2.
Proof.
  apply (non_owner_is_refused shop 1 stored_novel seller9).
  - by vm_compute.
  - by vm_compute.
Defined.

(** ** C6: a grade outside 1..5 *)

(** C6.  A review of an active product with a grade below 1 or above 5 is
    refused with InvalidGrade and nothing is written: no review is stored
    and the rating of the product stays as it was. *)
Theorem create_review_invalid_grade db now review user p :
  products db !! rc_product_id review = Some p →
  p_is_active p = true →
  rc_grade review < 1 ∨ 5 < rc_grade review →
  fails_with InvalidGrade (create_review now review user db).2 ∧
  (create_review now review user db).1 = db ∧
  reviews (create_review now review user db).1 = reviews db ∧
  products (create_review now review user db).1 !! rc_product_id review
    = Some p.
Proof.
  intros Hp Hact Hgrade. unfold create_review, select_active.
  rewrite Hp, Hact, decide_True by lia.
  split; [by eexists | done].
Qed.

Lemma create_review_invalid_grade_witness :
  fails_with InvalidGrade
    (create_review 102 (mkReviewCreate 1 None 6) buyer8 shop).2 ∧
  (create_review 102 (mkReviewCreate 1 None 6) buyer8 shop).1 = shop ∧
  reviews (create_review 102 (mkReviewCreate 1 None 6) buyer8 shop).1
    = reviews shop ∧
  products (create_review 102 (mkReviewCreate 1 None 6) buyer8 shop).1 !! 1
    = Some stored_novel.
Proof.
  apply (create_review_invalid_grade shop 102 (mkReviewCreate 1 None 6) buyer8
                                     stored_novel).
  - by vm_compute.
  - reflexivity.
  - simpl. lia.
Defined.

(** ** C7: the products of a category *)

(** The status of the failure is 400, as for the category of a new
    product, not 404. *)
Lemma products_of_missing_category_is_bad_request :
  ¬ category_active empty_db 5 ∧
  get_products_by_category 5 empty_db =
    raise HTTP_400_BAD_REQUEST "Category not found" ∧
  ¬ fails_with NotFound (get_products_by_category 5 empty_db).
Proof.
  split; [|split].
  - intros [c Hc]. vm_compute in Hc. discriminate Hc.
  - by vm_compute.
  - intros (e & He & Hnf). vm_compute in He. injection He as <-.
    discriminate Hnf.
Qed.

(** C7, amended.  The listing of the category c returns a list that holds
    the product P exactly when c is the category of P, that category is
    active and P is active; when c is missing or inactive the request fails
    with the status 400 and "Category not found" (InvalidReference, not
    NotFound) and returns no list. *)
Theorem get_products_by_category_spec db category_id :
  (∀ id P,
     (∃ l, get_products_by_category category_id db = Return l ∧ (id, P) ∈ l) ↔
     products db !! id = Some P ∧ category_id = p_category_id P ∧
     category_active db (p_category_id P) ∧ p_is_active P = true) ∧
  (¬ category_active db category_id →
   get_products_by_category category_id db =
     raise HTTP_400_BAD_REQUEST "Category not found" ∧
   fails_with InvalidReference (get_products_by_category category_id db)).
Proof.
  unfold get_products_by_category, category_active. split.
  - intros id P. split.
    + intros (l & Hl & Hin).
      destruct (select_active _ _ category_id) as [c|] eqn:Hc; [|done].
      injection Hl as <-.
      apply elem_of_select_all in Hin as (HP & Hcat & Hact). simpl in *.
      subst category_id. rewrite Hc. eauto.
    + intros (HP & -> & [c Hc] & Hact). rewrite Hc.
      eexists. split; [done|]. by apply elem_of_select_all.
  - intros Hno. destruct (select_active _ _ category_id) as [c|].
    + destruct Hno. eauto.
    + split; [done|]. eexists. split; [done|]. split; [done | by left].
Qed.

Lemma get_products_by_category_spec_witness :
  (∃ l, get_products_by_category 2 shop = Return l ∧ (1, stored_novel) ∈ l) ∧
  get_products_by_category 5 shop =
    raise HTTP_400_BAD_REQUEST "Category not found" ∧
  fails_with InvalidReference (get_products_by_category 5 shop).
Proof.
  split.
  - apply (proj1 (get_products_by_category_spec shop 2) 1 stored_novel).
    split; [by vm_compute|]. split; [reflexivity|]. split; [|reflexivity].
    exists (mkCategory "novels" (Some 1) true). by vm_compute.
  - apply (proj2 (get_products_by_category_spec shop 5)).
    intros [c Hc]. vm_compute in Hc. discriminate Hc.
Defined.

(** ** C8: a product without active reviews *)

Lemma update_product_rating_inv db product_id db' :
  update_product_rating db product_id = Some db' →
  ∃ p, products db !! product_id = Some p ∧
       db' = set_products
               (<[product_id :=
                    set_rating (or_zero (avg (active_grades product_id db))) p]>
                  (products db)) db.
Proof.
  unfold update_product_rating.
  destruct (products db !! product_id) as [p|]; [|done].
  intros [= <-]. eauto.
Qed.

Lemma update_product_rating_None db product_id :
  update_product_rating db product_id = None →
  products db !! product_id = None.
Proof.
  unfold update_product_rating. by destruct (products db !! product_id).
Qed.

Lemma delete_review_keeps_products review_id user db k :
  is_Some (products db !! k) →
  is_Some (products (delete_review review_id user db).1 !! k).
Proof.
  intros Hk. unfold delete_review.
  destruct (select_active _ _ _) as [r|]; [|done].
  destruct (update_product_rating _ _) as [db2|] eqn:Hup; [|done].
  apply update_product_rating_inv in Hup as (p & Hp & ->). simpl in *.
  destruct (decide (r_product_id r = k)) as [->|Hne].
  - rewrite lookup_insert_eq. eauto.
  - by rewrite lookup_insert_ne.
Qed.

Lemma delete_review_zero_if_unreviewed review_id user db k :
  is_Some (products db !! k) →
  zero_if_unreviewed db k →
  zero_if_unreviewed (delete_review review_id user db).1 k.
Proof.
  intros Hk Hzero. unfold delete_review.
  destruct (select_active _ _ _) as [r|] eqn:Hr; [|done].
  apply select_active_Some in Hr as [Hr _].
  set (db1 := set_reviews _ db).
  assert (r_product_id r ≠ k → zero_if_unreviewed db1 k) as Hother.
  { intros Hne Hempty. apply Hzero.
    apply Permutation_nil_r. rewrite <- Hempty. symmetry.
    by apply (active_reviews_replace_other k review_id r). }
  destruct (update_product_rating db1 _) as [db2|] eqn:Hup; cbn [fst].
  - apply update_product_rating_inv in Hup as (p & Hp & ->).
    destruct (decide (r_product_id r = k)) as [<-|Hne].
    + intros Hempty. eexists. simpl. rewrite lookup_insert_eq.
      split; [done|]. simpl. unfold active_grades.
      change (active_reviews (r_product_id r) db1 = []) in Hempty.
      rewrite Hempty. reflexivity.
    + intros Hempty. destruct (Hother Hne Hempty) as (p' & Hp' & Hrat).
      exists p'. simpl. by rewrite lookup_insert_ne.
  - apply update_product_rating_None in Hup. apply Hother.
    intros Heq. destruct Hk as [p Hp]. simpl in Hup. congruence.
Qed.

Lemma delete_reviews_zero_if_unreviewed review_ids user db k :
  is_Some (products db !! k) →
  zero_if_unreviewed db k →
  zero_if_unreviewed (delete_reviews review_ids user db) k.
Proof.
  revert db. induction review_ids as [|id ids IH]; intros db Hk Hzero; [done|].
  simpl. apply IH.
  - by apply delete_review_keeps_products.
  - by apply delete_review_zero_if_unreviewed.
Qed.

(** C8.  For a product without active reviews the recomputation writes 0 to
    its rating, and nothing else.  After the soft-delete of every review of a
    product, that is after a sequence of review soft-deletes that leaves the
    product without active reviews, the rating of the product is 0; this
    holds from every database in which the product has an active review or
    a rating that agrees with its reviews. *)
Theorem rating_zero_without_active_reviews db product_id p :
  products db !! product_id = Some p →
  (active_reviews product_id db = [] →
   update_product_rating db product_id =
     Some (set_products (<[product_id := set_rating 0%Q p]> (products db)) db)) ∧
  (∀ review_ids user,
     active_reviews product_id db ≠ [] ∨ rating_ok db product_id →
     active_reviews product_id (delete_reviews review_ids user db) = [] →
     ∃ p', products (delete_reviews review_ids user db) !! product_id = Some p' ∧
           (p_rating p' == 0)%Q).
Proof.
  intros Hp. split.
  - intros Hempty. unfold update_product_rating, active_grades.
    by rewrite Hp, Hempty.
  - intros review_ids user Hstart Hempty.
    apply (delete_reviews_zero_if_unreviewed review_ids user db);
      [by eauto | | done].
    intros Hnone. destruct Hstart as [Hsome | Hok]; [by destruct Hsome|].
    exists p. split; [done|]. rewrite (Hok p Hp).
    unfold active_grades. rewrite Hnone. reflexivity.
Qed.

Lemma rating_zero_without_active_reviews_witness :
  update_product_rating unreviewed_shop 1 =
    Some (set_products
            (<[1 := set_rating 0%Q (mkProduct "novel" "a novel" 10%Q 2 7 0%Q true)]>
               (products unreviewed_shop)) unreviewed_shop) ∧
  ∃ p', products (delete_reviews [1; 2] admin1 shop) !! 1 = Some p' ∧
        (p_rating p' == 0)%Q.
Proof.
  split.
  - apply (rating_zero_without_active_reviews unreviewed_shop 1
             (mkProduct "novel" "a novel" 10%Q 2 7 0%Q true)).
    + by vm_compute.
    + by vm_compute.
  - apply (rating_zero_without_active_reviews shop 1 stored_novel).
    + by vm_compute.
    + left. by vm_compute.
    + by vm_compute.
Defined.

(** ** C9: the order of the checks of a new review *)

(** C9.  The product is looked up before the grade is looked at: a review
    of a missing or soft-deleted product is refused with NotFound whatever
    its grade, and InvalidGrade is only raised for an active product. *)
Theorem create_review_checks_product_first db now review user :
  (¬ product_active db (rc_product_id review) →
   create_review now review user db =
     (db, raise HTTP_404_NOT_FOUND "Product not found") ∧
   fails_with NotFound (create_review now review user db).2) ∧
  (fails_with InvalidGrade (create_review now review user db).2 →
   product_active db (rc_product_id review)).
Proof.
  unfold product_active, create_review. split.
  - intros Hno. destruct (select_active _ _ _) as [p|].
    + destruct Hno. eauto.
    + split; [done | by eexists].
  - intros (e & He & ->). destruct (select_active _ _ _) as [p|]; [eauto|].
    discriminate He.
Qed.

Lemma create_review_checks_product_first_witness :
  (create_review 102 (mkReviewCreate 1 None 9) buyer8 closed_shop =
     (closed_shop, raise HTTP_404_NOT_FOUND "Product not found") ∧
   fails_with NotFound
     (create_review 102 (mkReviewCreate 1 None 9) buyer8 closed_shop).2) ∧
  product_active shop 1.
Proof.
  split.
  - apply (proj1 (create_review_checks_product_first closed_shop 102
                    (mkReviewCreate 1 None 9) buyer8)).
    intros [p Hp]. vm_compute in Hp. discriminate Hp.
  - apply (proj2 (create_review_checks_product_first shop 102
                    (mkReviewCreate 1 None 9) buyer8)).
    eexists. split; [by vm_compute | reflexivity].
Defined.

(** ** C10: what a soft-delete writes *)

(** C10.  A successful soft-delete of a category, a product or a review sets
    [is_active] of that row to false and leaves its other fields, the other
    rows of the table and the other tables as they were; the soft-delete of a
    review moreover writes the recomputed rating, and only the rating, of
    the product it reviewed. *)
Theorem soft_delete_frame :
  (∀ db id c,
     categories db !! id = Some c → c_is_active c = true →
     let db' := (delete_category id db).1 in
     products db' = products db ∧ reviews db' = reviews db ∧
     (∀ k, k ≠ id → categories db' !! k = categories db !! k) ∧
     ∃ c', categories db' !! id = Some c' ∧ c_is_active c' = false ∧
           category_fields c' = category_fields c) ∧
  (∀ db id p user,
     products db !! id = Some p → p_is_active p = true →
     p_seller_id p = u_id user →
     let db' := (delete_product id user db).1 in
     categories db' = categories db ∧ reviews db' = reviews db ∧
     (∀ k, k ≠ id → products db' !! k = products db !! k) ∧
     ∃ p', products db' !! id = Some p' ∧ p_is_active p' = false ∧
           product_fields p' = product_fields p ∧ p_rating p' = p_rating p) ∧
  (∀ db id r user,
     reviews db !! id = Some r → r_is_active r = true →
     let db' := (delete_review id user db).1 in
     categories db' = categories db ∧
     (∀ k, k ≠ id → reviews db' !! k = reviews db !! k) ∧
     (∃ r', reviews db' !! id = Some r' ∧ r_is_active r' = false ∧
            review_fields r' = review_fields r) ∧
     (∀ k, k ≠ r_product_id r → products db' !! k = products db !! k) ∧
     match products db !! r_product_id r with
     | Some p =>
         ∃ p', products db' !! r_product_id r = Some p' ∧
               p_is_active p' = p_is_active p ∧
               product_fields p' = product_fields p ∧
               (p_rating p' ==
                expected_rating (active_grades (r_product_id r) db'))%Q
     | None => products db' !! r_product_id r = None
     end).
Proof.
  split; [|split].
  - intros db id c Hc Hact. unfold delete_category, select_active.
    rewrite Hc, Hact. simpl. split; [done|]. split; [done|]. split.
    + intros k Hne. by rewrite lookup_insert_ne.
    + eexists. by rewrite lookup_insert_eq.
  - intros db id p user Hp Hact Hown. unfold delete_product, select_active.
    rewrite Hp, Hact, decide_False by (intros Hne; by apply Hne).
    simpl. split; [done|]. split; [done|]. split.
    + intros k Hne. by rewrite lookup_insert_ne.
    + eexists. by rewrite lookup_insert_eq.
  - intros db id r user Hr Hact. unfold delete_review, select_active.
    rewrite Hr, Hact. set (db1 := set_reviews _ db).
    assert (∀ k, k ≠ id → reviews db1 !! k = reviews db !! k) as Hrest.
    { intros k Hne. simpl. by rewrite lookup_insert_ne. }
    assert (∃ r', reviews db1 !! id = Some r' ∧ r_is_active r' = false ∧
                  review_fields r' = review_fields r) as Hrow.
    { eexists. simpl. by rewrite lookup_insert_eq. }
    destruct (update_product_rating db1 _) as [db2|] eqn:Hup; cbn [fst].
    + apply update_product_rating_inv in Hup as (p & Hp & ->).
      change (products db1) with (products db) in *. rewrite Hp.
      split; [done|]. split; [done|]. split; [done|]. split.
      * intros k Hne. simpl. by rewrite lookup_insert_ne.
      * eexists. simpl. rewrite lookup_insert_eq.
        split; [done|]. split; [done|]. split; [done|].
        exact (or_zero_avg (active_grades (r_product_id r) db1)).
    + apply update_product_rating_None in Hup.
      change (products db1) with (products db) in *. rewrite Hup.
      done.
Qed.

Lemma soft_delete_frame_witness :
  (∃ c', categories (delete_category 2 shop).1 !! 2 = Some c' ∧
         c_is_active c' = false ∧
         category_fields c' = ("novels", Some 1)) ∧
  (∃ p', products (delete_product 1 seller7 shop).1 !! 1 = Some p' ∧
         p_is_active p' = false ∧
         product_fields p' = product_fields stored_novel ∧
         p_rating p' = p_rating stored_novel) ∧
  (∃ p', products (delete_review 1 admin1 shop).1 !! 1 = Some p' ∧
         p_is_active p' = true ∧
         product_fields p' = product_fields stored_novel ∧
         (p_rating p' ==
          expected_rating (active_grades 1 (delete_review 1 admin1 shop).1))%Q).
Proof.
  destruct soft_delete_frame as (Hcat & Hprod & Hrev).
  split; [|split].
  - apply (Hcat shop 2 (mkCategory "novels" (Some 1) true));
      by vm_compute.
  - apply (Hprod shop 1 stored_novel seller7); by vm_compute.
  - pose proof (Hrev shop 1 (mkReview 8 1 None 100 4 true) admin1) as H.
    apply H; by vm_compute.
Defined.

(** * Further properties of the handlers *)

(** ** Rows are never removed, never reactivated *)

Section evolution.
Context {A : Type} (R : A → A → Prop).
Context (R_refl : ∀ row, R row row).
Context (R_trans : ∀ a b c, R a b → R b c → R a c).

Lemma table_evolves_refl (t : gmap Z A) : table_evolves R t t.
Proof. intros id row Hrow. eauto. Qed.

Lemma table_evolves_trans (t1 t2 t3 : gmap Z A) :
  table_evolves R t1 t2 → table_evolves R t2 t3 → table_evolves R t1 t3.
Proof.
  intros H12 H23 id row Hrow.
  destruct (H12 id row Hrow) as (row2 & Hrow2 & HR2).
  destruct (H23 id row2 Hrow2) as (row3 & Hrow3 & HR3). eauto.
Qed.

Lemma table_evolves_new (t : gmap Z A) id row :
  t !! id = None → table_evolves R t (<[id := row]> t).
Proof.
  intros Hid k old Hk. exists old. split; [|done].
  rewrite lookup_insert_ne; [done|]. intros ->. congruence.
Qed.

Lemma table_evolves_write (t : gmap Z A) id old row :
  t !! id = Some old → R old row → table_evolves R t (<[id := row]> t).
Proof.
  intros Hid HR k old' Hk. destruct (decide (id = k)) as [<-|Hne].
  - rewrite lookup_insert_eq. exists row. split; [done|]. congruence.
  - rewrite lookup_insert_ne by done. eauto.
Qed.
End evolution.

Lemma category_evolves_refl c : category_evolves c c.
Proof. by intros Hc. Qed.

Lemma product_evolves_refl p : product_evolves p p.
Proof. by split. Qed.

Lemma review_evolves_refl r : review_evolves r r.
Proof. by split. Qed.

Lemma evolves_refl db : evolves db db.
Proof.
  split; [|split]; apply table_evolves_refl;
    auto using category_evolves_refl, product_evolves_refl, review_evolves_refl.
Qed.

Lemma evolves_trans db1 db2 db3 :
  evolves db1 db2 → evolves db2 db3 → evolves db1 db3.
Proof.
  intros (Hc12 & Hp12 & Hr12) (Hc23 & Hp23 & Hr23).
  split; [|split]; eapply table_evolves_trans; try eassumption.
  - intros a b c Hab Hbc Ha. auto.
  - intros a b c [Hs1 Ha1] [Hs2 Ha2]. split; [congruence | auto].
  - intros a b c [Hs1 Ha1] [Hs2 Ha2]. split; [congruence | auto].
Qed.

Lemma evolves_set_categories t db :
  table_evolves category_evolves (categories db) t →
  evolves db (set_categories t db).
Proof.
  intros Ht. split; [done|].
  split; apply table_evolves_refl;
    auto using product_evolves_refl, review_evolves_refl.
Qed.

Lemma evolves_set_products t db :
  table_evolves product_evolves (products db) t →
  evolves db (set_products t db).
Proof.
  intros Ht. split; [|split; [done|]]; apply table_evolves_refl;
    auto using category_evolves_refl, review_evolves_refl.
Qed.

Lemma evolves_set_reviews t db :
  table_evolves review_evolves (reviews db) t →
  evolves db (set_reviews t db).
Proof.
  intros Ht. split; [|split; [|done]]; apply table_evolves_refl;
    auto using category_evolves_refl, product_evolves_refl.
Qed.

Lemma update_product_rating_evolves db product_id db' :
  update_product_rating db product_id = Some db' → evolves db db'.
Proof.
  intros Hup. apply update_product_rating_inv in Hup as (p & Hp & ->).
  apply evolves_set_products.
  apply (table_evolves_write _ product_evolves_refl _ _ p); [done|].
  by split.
Qed.

Lemma create_category_evolves category db :
  evolves db (create_category category db).1.
Proof.
  assert (evolves db
            (set_categories
               (<[next_id (categories db) :=
                    mkCategory (cc_name category) (parent_id category) true]>
                  (categories db)) db)) as Hnew.
  { apply evolves_set_categories, table_evolves_new;
      [apply category_evolves_refl | apply next_id_fresh]. }
  unfold create_category. destruct (parent_id category) as [pid|]; [|done].
  destruct (select_active _ _ pid); [done | apply evolves_refl].
Qed.

Lemma update_category_evolves category_id category db :
  evolves db (update_category category_id category db).1.
Proof.
  unfold update_category.
  destruct (select_active _ _ category_id) as [c0|] eqn:Hc0;
    [|apply evolves_refl].
  apply select_active_Some in Hc0 as [Hc0 Hact].
  assert (evolves db
            (set_categories
               (<[category_id := category_values category c0]> (categories db))
               db)) as Hwrite.
  { apply evolves_set_categories.
    apply (table_evolves_write _ category_evolves_refl _ _ c0); [done|].
    intros Hoff. congruence. }
  destruct (parent_id category) as [pid|]; [|done].
  destruct (select_active _ _ pid); [|apply evolves_refl].
  case_decide; [apply evolves_refl | done].
Qed.

Lemma delete_category_evolves category_id db :
  evolves db (delete_category category_id db).1.
Proof.
  unfold delete_category.
  destruct (select_active _ _ category_id) as [c0|] eqn:Hc0;
    [|apply evolves_refl].
  apply select_active_Some in Hc0 as [Hc0 Hact]. simpl.
  apply evolves_set_categories.
  by apply (table_evolves_write _ category_evolves_refl _ _ c0).
Qed.

Lemma create_product_evolves product user db :
  evolves db (create_product product user db).1.
Proof.
  unfold create_product.
  destruct (select_active _ _ _); [|apply evolves_refl]. simpl.
  apply evolves_set_products, table_evolves_new;
    [apply product_evolves_refl | apply next_id_fresh].
Qed.

Lemma update_product_evolves product_id product user db :
  evolves db (update_product product_id product user db).1.
Proof.
  unfold update_product.
  destruct (products db !! product_id) as [p|] eqn:Hp; [|apply evolves_refl].
  case_decide; [apply evolves_refl|].
  destruct (select_active _ _ _); [|apply evolves_refl]. simpl.
  apply evolves_set_products.
  apply (table_evolves_write _ product_evolves_refl _ _ p); [done|].
  by split.
Qed.

Lemma delete_product_evolves product_id user db :
  evolves db (delete_product product_id user db).1.
Proof.
  unfold delete_product.
  destruct (select_active _ _ _) as [p|] eqn:Hp; [|apply evolves_refl].
  apply select_active_Some in Hp as [Hp _].
  case_decide; [apply evolves_refl|]. simpl.
  apply evolves_set_products.
  apply (table_evolves_write _ product_evolves_refl _ _ p); [done|].
  by split.
Qed.

Lemma create_review_evolves now review user db :
  evolves db (create_review now review user db).1.
Proof.
  unfold create_review.
  destruct (select_active _ _ _) as [p|]; [|apply evolves_refl].
  case_decide; [apply evolves_refl|].
  set (db1 := set_reviews _ db).
  assert (evolves db db1) as H1.
  { apply evolves_set_reviews, table_evolves_new;
      [apply review_evolves_refl | apply next_id_fresh]. }
  destruct (update_product_rating db1 _) as [db2|] eqn:Hup; cbn [fst];
    [|done].
  apply (evolves_trans _ db1); [done|].
  by apply update_product_rating_evolves in Hup.
Qed.

Lemma delete_review_evolves review_id user db :
  evolves db (delete_review review_id user db).1.
Proof.
  unfold delete_review.
  destruct (select_active _ _ _) as [r|] eqn:Hr; [|apply evolves_refl].
  apply select_active_Some in Hr as [Hr _].
  set (db1 := set_reviews _ db).
  assert (evolves db db1) as H1.
  { apply evolves_set_reviews.
    apply (table_evolves_write _ review_evolves_refl _ _ r); [done|].
    by split. }
  destruct (update_product_rating db1 _) as [db2|] eqn:Hup; cbn [fst];
    [|done].
  apply (evolves_trans _ db1); [done|].
  by apply update_product_rating_evolves in Hup.
Qed.

Lemma app_evolves req db : evolves db (app req db).
Proof.
  destruct req; simpl; unfold requires; try destruct (has_role _ _);
    auto using evolves_refl, create_category_evolves, update_category_evolves,
      delete_category_evolves, create_product_evolves, update_product_evolves,
      delete_product_evolves, create_review_evolves, delete_review_evolves.
Qed.

(** X1.  Whatever the requests, no row of any table is ever removed, no
    soft-deleted category, product or review becomes active again, the
    seller of a product never changes, and a review keeps its author,
    product, comment, date and grade. *)
Theorem rows_stay_and_stay_deleted reqs db : evolves db (serve reqs db).
Proof.
  revert db. induction reqs as [|req reqs IH]; intros db;
    [apply evolves_refl|].
  simpl. apply (evolves_trans _ (app req db)); [apply app_evolves | apply IH].
Qed.

(** ** The range of the ratings *)

Lemma sum_grades_bounds l :
  Forall (λ g, 1 ≤ g ≤ 5) l →
  Z.of_nat (length l) ≤ sum_grades l ≤ 5 * Z.of_nat (length l).
Proof.
  unfold sum_grades.
  induction 1 as [|g l Hg _ IH]; cbn [length foldr]; [lia|].
  rewrite Nat2Z.inj_succ. lia.
Qed.

Lemma mean_bounds l :
  Forall (λ g, 1 ≤ g ≤ 5) l → l ≠ [] → (1 <= mean l <= 5)%Q.
Proof.
  intros Hl Hne. pose proof (sum_grades_bounds l Hl) as [Hlo Hhi].
  assert (0 < Z.of_nat (length l)) as Hpos.
  { destruct l; [done | simpl; lia]. }
  assert (0 < inject_Z (Z.of_nat (length l)))%Q as HposQ.
  { unfold Qlt. simpl. lia. }
  unfold mean. split.
  - apply Qle_shift_div_l; [done|].
    unfold Qle, Qmult, inject_Z. cbn [Qnum Qden]. lia.
  - apply Qle_shift_div_r; [done|].
    unfold Qle, Qmult, inject_Z. cbn [Qnum Qden]. lia.
Qed.

Lemma active_grades_stored product_id db g :
  g ∈ active_grades product_id db →
  ∃ id r, reviews db !! id = Some r ∧ r_grade r = g.
Proof.
  unfold active_grades, active_reviews. intros Hg.
  apply list_elem_of_fmap in Hg as ([id r] & -> & Hin).
  apply elem_of_select_all in Hin as [Hr _]. eauto.
Qed.

Lemma update_product_rating_reviews db product_id db' :
  update_product_rating db product_id = Some db' → reviews db' = reviews db.
Proof.
  intros Hup. by apply update_product_rating_inv in Hup as (p & Hp & ->).
Qed.

Lemma create_review_grades_in_range now review user db :
  grades_in_range db → grades_in_range (create_review now review user db).1.
Proof.
  intros Hin. unfold create_review.
  destruct (select_active _ _ _) as [p|]; [|done].
  case_decide as Hgrade; [done|].
  set (db1 := set_reviews _ db).
  assert (grades_in_range db1) as H1.
  { intros id r. simpl. destruct (decide (next_id (reviews db) = id)) as [<-|Hne].
    - rewrite lookup_insert_eq. intros [= <-]. simpl. lia.
    - rewrite lookup_insert_ne by done. apply Hin. }
  destruct (update_product_rating db1 _) as [db2|] eqn:Hup; cbn [fst]; [|done].
  apply update_product_rating_reviews in Hup.
  unfold grades_in_range. by rewrite Hup.
Qed.

Lemma delete_review_grades_in_range review_id user db :
  grades_in_range db → grades_in_range (delete_review review_id user db).1.
Proof.
  intros Hin. unfold delete_review.
  destruct (select_active _ _ _) as [r|] eqn:Hr; [|done].
  apply select_active_Some in Hr as [Hr _].
  set (db1 := set_reviews _ db).
  assert (grades_in_range db1) as H1.
  { intros id r'. simpl. destruct (decide (review_id = id)) as [<-|Hne].
    - rewrite lookup_insert_eq. intros [= <-]. simpl. by apply (Hin review_id).
    - rewrite lookup_insert_ne by done. apply Hin. }
  destruct (update_product_rating db1 _) as [db2|] eqn:Hup; cbn [fst]; [|done].
  apply update_product_rating_reviews in Hup.
  unfold grades_in_range. by rewrite Hup.
Qed.

Lemma app_grades_in_range req db :
  grades_in_range db → grades_in_range (app req db).
Proof.
  intros Hin. destruct req; simpl; unfold requires;
    try destruct (has_role _ _); try done;
    auto using create_review_grades_in_range, delete_review_grades_in_range.
  - unfold create_category. destruct (parent_id _); [|done].
    by destruct (select_active _ _ _).
  - unfold update_category. destruct (select_active _ _ _); [|done].
    destruct (parent_id _); [|done]. destruct (select_active _ _ _); [|done].
    by case_decide.
  - unfold delete_category. by destruct (select_active _ _ _).
  - unfold create_product. by destruct (select_active _ _ _).
  - unfold update_product. destruct (products db !! _); [|done].
    case_decide; [done|]. by destruct (select_active _ _ _).
  - unfold delete_product. destruct (select_active _ _ _); [|done].
    by case_decide.
Qed.

Lemma serve_grades_in_range reqs db :
  grades_in_range db → grades_in_range (serve reqs db).
Proof.
  revert db. induction reqs as [|req reqs IH]; intros db Hin; [done|].
  simpl. by apply IH, app_grades_in_range.
Qed.

(** X2.  In a database whose ratings agree with the reviews and whose
    grades are all in 1..5, and after any requests served from it, the rating
    of a product is 0 if it has no active review and lies between 1 and 5
    otherwise: [create_review] lets no other grade in. *)
Theorem rating_is_zero_or_between_1_and_5 reqs db product_id p :
  consistent db → grades_in_range db →
  products (serve reqs db) !! product_id = Some p →
  match active_grades product_id (serve reqs db) with
  | [] => (p_rating p == 0)%Q
  | _ :: _ => (1 <= p_rating p <= 5)%Q
  end.
Proof.
  intros Hc Hin Hp.
  pose proof (proj2 (serve_consistent reqs db Hc) product_id p Hp) as Hrat.
  pose proof (serve_grades_in_range reqs db Hin) as Hin'.
  assert (Forall (λ g, 1 ≤ g ≤ 5) (active_grades product_id (serve reqs db)))
    as Hall.
  { apply Forall_forall. intros g Hg.
    apply active_grades_stored in Hg as (id & r & Hr & <-). by apply (Hin' id). }
  destruct (active_grades product_id (serve reqs db)) as [|g l] eqn:Hl; [done|].
  pose proof (mean_bounds (g :: l) Hall) as [Hlo Hhi]; [done|].
  simpl in Hrat. by rewrite Hrat.
Qed.

Lemma rating_is_zero_or_between_1_and_5_witness :
  products shop !! 1 = Some stored_novel ∧ (1 <= 9 # 2 <= 5)%Q.
Proof.
  split; [by vm_compute|].
  apply (rating_is_zero_or_between_1_and_5 shop_session empty_db 1 stored_novel).
  - split.
    + intros id r Hr. vm_compute in Hr. discriminate Hr.
    + intros k p Hp. vm_compute in Hp. discriminate Hp.
  - intros id r Hr. vm_compute in Hr. discriminate Hr.
  - by vm_compute.
Defined.

(** ** The foreign keys *)

Lemma evolves_products_keys db db' k :
  evolves db db' → is_Some (products db !! k) → is_Some (products db' !! k).
Proof.
  intros (_ & Hp & _) [p Hk]. destruct (Hp k p Hk) as (p' & Hk' & _). eauto.
Qed.

Lemma evolves_categories_keys db db' k :
  evolves db db' → is_Some (categories db !! k) →
  is_Some (categories db' !! k).
Proof.
  intros (Hc & _) [c Hk]. destruct (Hc k c Hk) as (c' & Hk' & _). eauto.
Qed.

Lemma category_active_exists db id :
  category_active db id → is_Some (categories db !! id).
Proof. intros Hact. apply category_active_lookup in Hact as (c & Hc & _). eauto. Qed.

Lemma product_active_exists db id :
  product_active db id → is_Some (products db !! id).
Proof. intros [p Hp]. apply select_active_Some in Hp as [Hp _]. eauto. Qed.

(** Where the category of a stored product comes from: it is the one the
    product had, or one that the request has found active. *)
Lemma app_product_category req db id p' :
  products (app req db) !! id = Some p' →
  (∃ p, products db !! id = Some p ∧ p_category_id p' = p_category_id p) ∨
  category_active db (p_category_id p').
Proof.
  assert (products db !! id = Some p' →
          (∃ p, products db !! id = Some p ∧
                p_category_id p' = p_category_id p) ∨
          category_active db (p_category_id p')) as Hsame by eauto.
  assert (∀ db1 k db2,
            products db1 = products db →
            update_product_rating db1 k = Some db2 →
            products db2 !! id = Some p' →
            (∃ p, products db !! id = Some p ∧
                  p_category_id p' = p_category_id p) ∨
            category_active db (p_category_id p')) as Hrate.
  { intros db1 k db2 Hprod Hup.
    apply update_product_rating_inv in Hup as (p & Hp & ->). simpl.
    rewrite Hprod in *. destruct (decide (k = id)) as [->|Hne].
    - rewrite lookup_insert_eq. intros [= <-]. left. eauto.
    - rewrite lookup_insert_ne by done. eauto. }
  destruct req; simpl; unfold requires; try destruct (has_role _ _);
    try done.
  - unfold create_category. destruct (parent_id _); [|done].
    by destruct (select_active _ _ _).
  - unfold update_category. destruct (select_active _ _ _); [|done].
    destruct (parent_id _); [|done]. destruct (select_active _ _ _); [|done].
    by case_decide.
  - unfold delete_category. by destruct (select_active _ _ _).
  - unfold create_product.
    destruct (select_active _ _ _) as [c|] eqn:Hc; [|done]. simpl.
    destruct (decide (next_id (products db) = id)) as [<-|Hne].
    + rewrite lookup_insert_eq. intros [= <-]. right. by exists c.
    + by rewrite lookup_insert_ne.
  - unfold update_product.
    destruct (products db !! product_id) as [p|] eqn:Hp; [|done].
    case_decide; [done|].
    destruct (select_active _ _ _) as [c|] eqn:Hc; [|done]. simpl.
    destruct (decide (product_id = id)) as [<-|Hne].
    + rewrite lookup_insert_eq. intros [= <-]. right. by exists c.
    + by rewrite lookup_insert_ne.
  - unfold delete_product.
    destruct (select_active _ _ _) as [p|] eqn:Hp; [|done].
    apply select_active_Some in Hp as [Hp _].
    case_decide; [done|]. simpl.
    destruct (decide (product_id = id)) as [<-|Hne].
    + rewrite lookup_insert_eq. intros [= <-]. left. eauto.
    + by rewrite lookup_insert_ne.
  - unfold create_review. destruct (select_active _ _ _); [|done].
    case_decide; [done|].
    destruct (update_product_rating _ _) as [db2|] eqn:Hup; cbn [fst];
      [|done].
    by refine (Hrate _ _ _ _ Hup).
  - unfold delete_review. destruct (select_active _ _ _); [|done].
    destruct (update_product_rating _ _) as [db2|] eqn:Hup; cbn [fst];
      [|done].
    by refine (Hrate _ _ _ _ Hup).
Qed.

(** Where the product of a stored review comes from. *)
Lemma app_review_product req db id r' :
  reviews (app req db) !! id = Some r' →
  (∃ r, reviews db !! id = Some r ∧ r_product_id r' = r_product_id r) ∨
  product_active db (r_product_id r').
Proof.
  assert (reviews db !! id = Some r' →
          (∃ r, reviews db !! id = Some r ∧
                r_product_id r' = r_product_id r) ∨
          product_active db (r_product_id r')) as Hsame by eauto.
  destruct req; simpl; unfold requires; try destruct (has_role _ _);
    try done.
  - unfold create_category. destruct (parent_id _); [|done].
    by destruct (select_active _ _ _).
  - unfold update_category. destruct (select_active _ _ _); [|done].
    destruct (parent_id _); [|done]. destruct (select_active _ _ _); [|done].
    by case_decide.
  - unfold delete_category. by destruct (select_active _ _ _).
  - unfold create_product. by destruct (select_active _ _ _).
  - unfold update_product. destruct (products db !! _); [|done].
    case_decide; [done|]. by destruct (select_active _ _ _).
  - unfold delete_product. destruct (select_active _ _ _); [|done].
    by case_decide.
  - unfold create_review.
    destruct (select_active _ _ _) as [p|] eqn:Hp; [|done].
    case_decide; [done|].
    set (db1 := set_reviews _ db).
    assert (reviews db1 !! id = Some r' →
            (∃ r, reviews db !! id = Some r ∧
                  r_product_id r' = r_product_id r) ∨
            product_active db (r_product_id r')) as H1.
    { simpl. destruct (decide (next_id (reviews db) = id)) as [<-|Hne].
      - rewrite lookup_insert_eq. intros [= <-]. right. by exists p.
      - by rewrite lookup_insert_ne. }
    destruct (update_product_rating db1 _) as [db2|] eqn:Hup; cbn [fst];
      [|done].
    apply update_product_rating_reviews in Hup. by rewrite Hup.
  - unfold delete_review.
    destruct (select_active _ _ _) as [r|] eqn:Hr; [|done].
    apply select_active_Some in Hr as [Hr _].
    set (db1 := set_reviews _ db).
    assert (reviews db1 !! id = Some r' →
            (∃ r, reviews db !! id = Some r ∧
                  r_product_id r' = r_product_id r) ∨
            product_active db (r_product_id r')) as H1.
    { simpl. destruct (decide (review_id = id)) as [<-|Hne].
      - rewrite lookup_insert_eq. intros [= <-]. left. eauto.
      - by rewrite lookup_insert_ne. }
    destruct (update_product_rating db1 _) as [db2|] eqn:Hup; cbn [fst];
      [|done].
    apply update_product_rating_reviews in Hup. by rewrite Hup.
Qed.

Lemma app_foreign_keys req db :
  reviews_refer_to_products db ∧ products_refer_to_categories db →
  reviews_refer_to_products (app req db) ∧
  products_refer_to_categories (app req db).
Proof.
  intros [Hrev Hprod]. pose proof (app_evolves req db) as Hev. split.
  - intros id r' Hr'. apply (evolves_products_keys db); [done|].
    apply app_review_product in Hr' as [(r & Hr & ->) | Hact].
    + by apply (Hrev id).
    + by apply product_active_exists.
  - intros id p' Hp'. apply (evolves_categories_keys db); [done|].
    apply app_product_category in Hp' as [(p & Hp & ->) | Hact].
    + by apply (Hprod id).
    + by apply category_active_exists.
Qed.

(** X3.  The foreign keys hold after any requests if they held before: every
    review is the review of a product that has a row, and every product is
    in a category that has a row (the row may be soft-deleted). *)
Theorem foreign_keys_preserved reqs db :
  reviews_refer_to_products db ∧ products_refer_to_categories db →
  reviews_refer_to_products (serve reqs db) ∧
  products_refer_to_categories (serve reqs db).
Proof.
  revert db. induction reqs as [|req reqs IH]; intros db Hfk; [done|].
  simpl. by apply IH, app_foreign_keys.
Qed.

Lemma foreign_keys_preserved_witness :
  reviews_refer_to_products shop ∧ products_refer_to_categories shop.
Proof.
  apply (foreign_keys_preserved shop_session empty_db). split.
  - intros id r Hr. vm_compute in Hr. discriminate Hr.
  - intros id p Hp. vm_compute in Hp. discriminate Hp.
Defined.

(** ** The fault after the commit *)

(** X4.  [create_review] never ends in the attribute error, and
    [delete_review] does not either as long as every review is the review of
    a product that has a row. *)
Theorem rating_update_finds_the_product db :
  (∀ now review user, (create_review now review user db).2 ≠ Unhandled) ∧
  (reviews_refer_to_products db →
   ∀ review_id user, (delete_review review_id user db).2 ≠ Unhandled).
Proof.
  split.
  - intros now review user. unfold create_review.
    destruct (select_active _ _ _) as [p|] eqn:Hp; [|done].
    apply select_active_Some in Hp as [Hp _].
    case_decide; [done|].
    by rewrite (update_product_rating_Some _ _ p).
  - intros Hfk review_id user. unfold delete_review.
    destruct (select_active _ _ _) as [r|] eqn:Hr; [|done].
    apply select_active_Some in Hr as [Hr _].
    destruct (Hfk _ _ Hr) as [p Hp].
    by rewrite (update_product_rating_Some _ _ p).
Qed.

Lemma rating_update_finds_the_product_witness :
  (create_review 102 (mkReviewCreate 1 None 3) buyer8 shop).2 ≠ Unhandled ∧
  (delete_review 2 admin1 shop).2 ≠ Unhandled.
Proof.
  split.
  - apply (proj1 (rating_update_finds_the_product shop)).
  - apply (proj2 (rating_update_finds_the_product shop)).
    apply (proj1 (serve_consistent shop_session empty_db consistent_empty)).
Defined.

(** ** Categories: creating and updating *)

Lemma elem_of_get_all_categories db id c :
  (id, c) ∈ get_all_categories db ↔
  categories db !! id = Some c ∧ c_is_active c = true.
Proof. unfold get_all_categories. by rewrite elem_of_select_all. Qed.

(** X5.  A category without a parent, or with an active one, is created
    under an id that was not in use; it is active, has the name and the
    parent of the payload, is listed from then on, and no other row of the
    database is touched. *)
Theorem create_category_stores_new_row category db :
  match parent_id category with
  | Some pid => category_active db pid
  | None => True
  end →
  ∃ id db',
    let row := mkCategory (cc_name category) (parent_id category) true in
    create_category category db = (db', Return (id, row)) ∧
    categories db !! id = None ∧
    categories db' !! id = Some row ∧
    (id, row) ∈ get_all_categories db' ∧
    (∀ k c, categories db !! k = Some c → categories db' !! k = Some c) ∧
    products db' = products db ∧ reviews db' = reviews db.
Proof.
  intros Hparent.
  exists (next_id (categories db)),
    (set_categories
       (<[next_id (categories db) :=
            mkCategory (cc_name category) (parent_id category) true]>
          (categories db)) db).
  pose proof (next_id_fresh (categories db)) as Hfresh.
  split; [|split; [done|split; [|split; [|split]]]].
  - unfold create_category. destruct (parent_id category) as [pid|]; [|done].
    destruct Hparent as [c Hc]. by rewrite Hc.
  - simpl. by rewrite lookup_insert_eq.
  - apply elem_of_get_all_categories. simpl. by rewrite lookup_insert_eq.
  - intros k c Hk. simpl. rewrite lookup_insert_ne; [done|]. congruence.
  - done.
Qed.

Lemma create_category_stores_new_row_witness :
  ∃ id db',
    create_category (mkCategoryCreate "poems" (Given (Some 2))) shop
      = (db', Return (id, mkCategory "poems" (Some 2) true)) ∧
    categories shop !! id = None ∧
    categories db' !! id = Some (mkCategory "poems" (Some 2) true) ∧
    (id, mkCategory "poems" (Some 2) true) ∈ get_all_categories db' ∧
    (∀ k c, categories shop !! k = Some c → categories db' !! k = Some c) ∧
    products db' = products shop ∧ reviews db' = reviews shop.
Proof.
  apply (create_category_stores_new_row
           (mkCategoryCreate "poems" (Given (Some 2))) shop).
  exists (mkCategory "novels" (Some 1) true). by vm_compute.
Defined.

(** X6.  A parent that is missing or soft-deleted is refused and nothing is
    written: by [create_category] with the status 400, by [update_category]
    with 400 when the category to update is active and with 404 when it is
    not, since the category is looked up before the parent. *)
Theorem parent_must_be_active category db pid :
  parent_id category = Some pid →
  ¬ category_active db pid →
  create_category category db =
    (db, raise HTTP_400_BAD_REQUEST "Parent category not found") ∧
  ∀ category_id,
    update_category category_id category db =
      (db, if bool_decide (category_active db category_id)
           then raise HTTP_400_BAD_REQUEST "Parent category not found"
           else raise HTTP_404_NOT_FOUND "Category not found").
Proof.
  intros Hpar Hno.
  assert (select_active c_is_active (categories db) pid = None) as Hsel.
  { destruct (select_active _ _ pid) as [c|] eqn:Hc; [|done].
    destruct Hno. by exists c. }
  split.
  - unfold create_category. by rewrite Hpar, Hsel.
  - intros category_id. unfold update_category, category_active.
    destruct (select_active _ _ category_id) as [c|] eqn:Hc.
    + rewrite Hpar, Hsel, bool_decide_eq_true_2; [done | by eexists].
    + rewrite bool_decide_eq_false_2; [done|]. by intros [c Hc'].
Qed.

Lemma parent_must_be_active_witness :
  create_category (mkCategoryCreate "poems" (Given (Some 1))) orphaned_shop =
    (orphaned_shop, raise HTTP_400_BAD_REQUEST "Parent category not found") ∧
  update_category 2 (mkCategoryCreate "poems" (Given (Some 1))) orphaned_shop =
    (orphaned_shop, raise HTTP_400_BAD_REQUEST "Parent category not found") ∧
  update_category 1 (mkCategoryCreate "poems" (Given (Some 1))) orphaned_shop =
    (orphaned_shop, raise HTTP_404_NOT_FOUND "Category not found").
Proof.
  destruct (parent_must_be_active
              (mkCategoryCreate "poems" (Given (Some 1))) orphaned_shop 1)
    as [Hcreate Hupdate].
  - reflexivity.
  - intros [c Hc]. vm_compute in Hc. discriminate Hc.
  - split; [exact Hcreate|]. split; [exact (Hupdate 2) | exact (Hupdate 1)].
Defined.

Lemma update_category_writes category_id category db c :
  categories db !! category_id = Some c → c_is_active c = true →
  match parent_id category with
  | Some pid => category_active db pid ∧ pid ≠ category_id
  | None => True
  end →
  update_category category_id category db =
    (set_categories
       (<[category_id := category_values category c]> (categories db)) db,
     Return (category_id, category_values category c)).
Proof.
  intros Hc Hact Hparent.
  unfold update_category, select_active at 1. rewrite Hc, Hact.
  destruct (parent_id category) as [pid|]; [|done].
  destruct Hparent as [[c' Hc'] Hne]. by rewrite Hc', decide_False.
Qed.

(** X7.  A successful [update_category] writes the name of the payload,
    keeps the category active, and touches the parent only if the payload
    carries one: a payload without [parent_id] keeps the parent, an explicit
    null removes it.  No other category, product or review is touched. *)
Theorem update_category_is_partial category_id category db c :
  categories db !! category_id = Some c → c_is_active c = true →
  match parent_id category with
  | Some pid => category_active db pid ∧ pid ≠ category_id
  | None => True
  end →
  ∃ db' row,
    update_category category_id category db = (db', Return (category_id, row)) ∧
    categories db' !! category_id = Some row ∧
    c_name row = cc_name category ∧ c_is_active row = true ∧
    c_parent_id row = match cc_parent_id category with
                      | Unset => c_parent_id c
                      | Given v => v
                      end ∧
    (∀ k, k ≠ category_id → categories db' !! k = categories db !! k) ∧
    products db' = products db ∧ reviews db' = reviews db.
Proof.
  intros Hc Hact Hparent.
  exists (set_categories
            (<[category_id := category_values category c]> (categories db)) db),
    (category_values category c).
  split; [|split; [|split; [done|split; [done|split; [done|split]]]]].
  - by apply update_category_writes.
  - simpl. by rewrite lookup_insert_eq.
  - intros k Hne. simpl. by rewrite lookup_insert_ne.
  - done.
Qed.

Lemma update_category_is_partial_witness :
  ∃ db' row,
    update_category 2 (mkCategoryCreate "fiction" Unset) shop
      = (db', Return (2, row)) ∧
    categories db' !! 2 = Some row ∧
    c_name row = "fiction" ∧ c_is_active row = true ∧
    c_parent_id row = Some 1 ∧
    (∀ k, k ≠ 2 → categories db' !! k = categories shop !! k) ∧
    products db' = products shop ∧ reviews db' = reviews shop.
Proof.
  apply (update_category_is_partial 2 (mkCategoryCreate "fiction" Unset) shop
           (mkCategory "novels" (Some 1) true)).
  - by vm_compute.
  - reflexivity.
  - exact I.
Defined.

(** X8.  The parent check of [update_category] looks one step only: for two
    active categories a and b, b a child of a, the update of a with the
    parent b is accepted, and then each of the two is the parent of the
    other. *)
Theorem update_category_accepts_cycle a b ca cb category db :
  a ≠ b →
  categories db !! a = Some ca → c_is_active ca = true →
  categories db !! b = Some cb → c_is_active cb = true →
  c_parent_id cb = Some a →
  cc_parent_id category = Given (Some b) →
  ∃ db' row,
    update_category a category db = (db', Return (a, row)) ∧
    categories db' !! a = Some row ∧ c_parent_id row = Some b ∧
    categories db' !! b = Some cb ∧ c_parent_id cb = Some a.
Proof.
  intros Hne Ha Hacta Hb Hactb Hpar Hgiven.
  eexists _, _. split; [|split; [|split; [|split]]].
  - apply (update_category_writes a category db ca Ha Hacta).
    unfold parent_id. rewrite Hgiven. split; [|done].
    exists cb. by apply select_active_Some.
  - simpl. by rewrite lookup_insert_eq.
  - simpl. by rewrite Hgiven.
  - simpl. by rewrite lookup_insert_ne.
  - done.
Qed.

Lemma update_category_accepts_cycle_witness :
  ∃ db' row,
    update_category 1 (mkCategoryCreate "books" (Given (Some 2))) shop
      = (db', Return (1, row)) ∧
    categories db' !! 1 = Some row ∧ c_parent_id row = Some 2 ∧
    categories db' !! 2 = Some (mkCategory "novels" (Some 1) true) ∧
    c_parent_id (mkCategory "novels" (Some 1) true) = Some 1.
Proof.
  apply (update_category_accepts_cycle 1 2 (mkCategory "books" None true)
           (mkCategory "novels" (Some 1) true)
           (mkCategoryCreate "books" (Given (Some 2))) shop);
    by vm_compute.
Defined.

(** ** Soft-deletes: a second time, and the listings afterwards *)

Lemma delete_category_Return category_id db x :
  (delete_category category_id db).2 = Return x →
  ∃ c, categories db !! category_id = Some c ∧ c_is_active c = true ∧
       (delete_category category_id db).1 =
         set_categories
           (<[category_id := deactivate_category c]> (categories db)) db.
Proof.
  unfold delete_category.
  destruct (select_active _ _ _) as [c|] eqn:Hc; [|done].
  apply select_active_Some in Hc as [Hc Hact]. eauto.
Qed.

Lemma delete_product_Return product_id user db x :
  (delete_product product_id user db).2 = Return x →
  ∃ p, products db !! product_id = Some p ∧ p_is_active p = true ∧
       p_seller_id p = u_id user ∧
       (delete_product product_id user db).1 =
         set_products
           (<[product_id := deactivate_product p]> (products db)) db.
Proof.
  unfold delete_product.
  destruct (select_active _ _ _) as [p|] eqn:Hp; [|done].
  apply select_active_Some in Hp as [Hp Hact].
  case_decide as Hown; [done|]. intros _. exists p.
  split; [done|]. split; [done|]. split; [|done].
  by destruct (decide (p_seller_id p = u_id user)).
Qed.

Lemma delete_review_Return review_id user db x :
  (delete_review review_id user db).2 = Return x →
  ∃ r p, reviews db !! review_id = Some r ∧ r_is_active r = true ∧
         products db !! r_product_id r = Some p ∧
         (delete_review review_id user db).1 =
           set_products
             (<[r_product_id r :=
                  set_rating
                    (or_zero
                       (avg (active_grades (r_product_id r)
                               (set_reviews
                                  (<[review_id := deactivate_review r]>
                                     (reviews db)) db)))) p]>
                (products db))
             (set_reviews
                (<[review_id := deactivate_review r]> (reviews db)) db).
Proof.
  unfold delete_review.
  destruct (select_active _ _ _) as [r|] eqn:Hr; [|done].
  apply select_active_Some in Hr as [Hr Hact].
  destruct (update_product_rating _ _) as [db2|] eqn:Hup; [|done].
  apply update_product_rating_inv in Hup as (p & Hp & ->).
  intros _. exists r, p. eauto.
Qed.

(** X9.  A soft-delete that has succeeded cannot be repeated: the same
    request on the database it has left is answered with 404 and writes
    nothing. *)
Theorem soft_delete_twice_is_not_found db :
  (∀ id x,
     (delete_category id db).2 = Return x →
     delete_category id (delete_category id db).1 =
       ((delete_category id db).1,
        raise HTTP_404_NOT_FOUND "Category not found")) ∧
  (∀ id user x,
     (delete_product id user db).2 = Return x →
     delete_product id user (delete_product id user db).1 =
       ((delete_product id user db).1,
        raise HTTP_404_NOT_FOUND "Product not found")) ∧
  (∀ id user user' x,
     (delete_review id user db).2 = Return x →
     delete_review id user' (delete_review id user db).1 =
       ((delete_review id user db).1,
        raise HTTP_404_NOT_FOUND "Review not found")).
Proof.
  split; [|split].
  - intros id x Hx.
    apply delete_category_Return in Hx as (c & Hc & Hact & ->).
    unfold delete_category at 1, select_active. simpl.
    by rewrite lookup_insert_eq.
  - intros id user x Hx.
    apply delete_product_Return in Hx as (p & Hp & Hact & Hown & ->).
    unfold delete_product at 1, select_active. simpl.
    by rewrite lookup_insert_eq.
  - intros id user user' x Hx.
    apply delete_review_Return in Hx as (r & p & Hr & Hact & Hp & ->).
    unfold delete_review at 1, select_active. simpl.
    by rewrite lookup_insert_eq.
Qed.

Lemma soft_delete_twice_is_not_found_witness :
  delete_category 1 (delete_category 1 shop).1 =
    ((delete_category 1 shop).1,
     raise HTTP_404_NOT_FOUND "Category not found") ∧
  delete_product 1 seller7 (delete_product 1 seller7 shop).1 =
    ((delete_product 1 seller7 shop).1,
     raise HTTP_404_NOT_FOUND "Product not found") ∧
  delete_review 1 admin1 (delete_review 1 admin1 shop).1 =
    ((delete_review 1 admin1 shop).1,
     raise HTTP_404_NOT_FOUND "Review not found").
Proof.
  destruct (soft_delete_twice_is_not_found shop) as (Hcat & Hprod & Hrev).
  split; [|split].
  - apply (Hcat 1 (1, mkCategory "books" None false)). by vm_compute.
  - apply (Hprod 1 seller7 (1, deactivate_product stored_novel)).
    by vm_compute.
  - apply (Hrev 1 admin1 admin1 "Review deleted"). by vm_compute.
Defined.

Lemma select_all_after_deactivate {A} (is_active : A → bool)
    (t : gmap Z A) id row' k row :
  is_active row' = false →
  (k, row) ∈ select_all (λ x, is_active x.2 = true) (<[id := row']> t) ↔
  (k, row) ∈ select_all (λ x, is_active x.2 = true) t ∧ k ≠ id.
Proof.
  intros Hoff. rewrite !elem_of_select_all. simpl.
  destruct (decide (id = k)) as [<-|Hne].
  - rewrite lookup_insert_eq. split.
    + intros [[= <-] Hact]. congruence.
    + by intros [_ Hne].
  - rewrite lookup_insert_ne by done. split.
    + intros [Hk Hact]. split; [done | congruence].
    + by intros [Hin _].
Qed.

(** X10.  After a successful soft-delete the listing of the active rows of
    that table is the listing from before without the deleted row, and the
    deleted product can no longer be fetched by its id. *)
Theorem soft_delete_leaves_the_listing db :
  (∀ id x, (delete_category id db).2 = Return x →
     ∀ k c, (k, c) ∈ get_all_categories (delete_category id db).1 ↔
            (k, c) ∈ get_all_categories db ∧ k ≠ id) ∧
  (∀ id user x, (delete_product id user db).2 = Return x →
     get_product id (delete_product id user db).1 =
       raise HTTP_404_NOT_FOUND "Product not found" ∧
     ∀ k p, (k, p) ∈ get_all_products (delete_product id user db).1 ↔
            (k, p) ∈ get_all_products db ∧ k ≠ id) ∧
  (∀ id user x, (delete_review id user db).2 = Return x →
     ∀ k r, (k, r) ∈ get_reviews (delete_review id user db).1 ↔
            (k, r) ∈ get_reviews db ∧ k ≠ id).
Proof.
  split; [|split].
  - intros id x Hx k c.
    apply delete_category_Return in Hx as (c0 & Hc & Hact & ->).
    by apply (select_all_after_deactivate c_is_active).
  - intros id user x Hx.
    apply delete_product_Return in Hx as (p0 & Hp & Hact & Hown & ->).
    split.
    + unfold get_product, select_active. simpl. by rewrite lookup_insert_eq.
    + intros k p. by apply (select_all_after_deactivate p_is_active).
  - intros id user x Hx k r.
    apply delete_review_Return in Hx as (r0 & p & Hr & Hact & Hp & ->).
    by apply (select_all_after_deactivate r_is_active).
Qed.

Lemma soft_delete_leaves_the_listing_witness :
  ((2, mkCategory "novels" (Some 1) true)
     ∈ get_all_categories (delete_category 1 shop).1 ↔
   (2, mkCategory "novels" (Some 1) true) ∈ get_all_categories shop ∧ 2 ≠ 1) ∧
  get_product 1 (delete_product 1 seller7 shop).1 =
    raise HTTP_404_NOT_FOUND "Product not found" ∧
  ((2, mkReview 8 1 (Some "good") 101 5 true)
     ∈ get_reviews (delete_review 1 admin1 shop).1 ↔
   (2, mkReview 8 1 (Some "good") 101 5 true) ∈ get_reviews shop ∧ 2 ≠ 1).
Proof.
  destruct (soft_delete_leaves_the_listing shop) as (Hcat & Hprod & Hrev).
  split; [|split].
  - apply (Hcat 1 (1, mkCategory "books" None false)). by vm_compute.
  - apply (Hprod 1 seller7 (1, deactivate_product stored_novel)).
    by vm_compute.
  - apply (Hrev 1 admin1 "Review deleted"). by vm_compute.
Defined.

(** ** What a soft-delete does to the rows that refer to the deleted one *)

(** X11.  The soft-delete of a category does not touch its products: they
    stay in the listing of all products and can be fetched by id.  The
    category itself is of no use any more: its listing fails with 400, no
    product can be created in it, and no product can be updated with it as
    the category, not even one that is in it already. *)
Theorem deleted_category_keeps_its_products id db x :
  (delete_category id db).2 = Return x →
  let db' := (delete_category id db).1 in
  get_all_products db' = get_all_products db ∧
  (∀ k, get_product k db' = get_product k db) ∧
  get_products_by_category id db' =
    raise HTTP_400_BAD_REQUEST "Category not found" ∧
  ∀ product user,
    pc_category_id product = id →
    create_product product user db' =
      (db', raise HTTP_400_BAD_REQUEST "Category not found") ∧
    ∀ k, (update_product k product user db').1 = db' ∧
         ∃ e, (update_product k product user db').2 = Raise e.
Proof.
  intros Hx db'.
  apply delete_category_Return in Hx as (c & Hc & Hact & Hdb'').
  subst db'. rewrite Hdb''.
  set (db' := set_categories _ db).
  assert (select_active c_is_active (categories db') id = None) as Hsel.
  { unfold select_active. simpl. by rewrite lookup_insert_eq. }
  split; [done|]. split; [done|]. split.
  - unfold get_products_by_category. by rewrite Hsel.
  - intros product user <-. split.
    + unfold create_product. by rewrite Hsel.
    + intros k. unfold update_product.
      destruct (products db' !! k); [|by eauto].
      case_decide; [by eauto|]. rewrite Hsel. by eauto.
Qed.

Lemma deleted_category_keeps_its_products_witness :
  get_all_products (delete_category 2 shop).1 = get_all_products shop ∧
  (∀ k, get_product k (delete_category 2 shop).1 = get_product k shop) ∧
  get_products_by_category 2 (delete_category 2 shop).1 =
    raise HTTP_400_BAD_REQUEST "Category not found" ∧
  ∀ product user,
    pc_category_id product = 2 →
    create_product product user (delete_category 2 shop).1 =
      ((delete_category 2 shop).1,
       raise HTTP_400_BAD_REQUEST "Category not found") ∧
    ∀ k, (update_product k product user (delete_category 2 shop).1).1
           = (delete_category 2 shop).1 ∧
         ∃ e, (update_product k product user (delete_category 2 shop).1).2
                = Raise e.
Proof.
  apply (deleted_category_keeps_its_products 2 shop
           (2, mkCategory "novels" (Some 1) false)).
  by vm_compute.
Defined.

(** X12.  After the soft-delete of a product its reviews are still rows of
    the listing of all reviews, but the listing of the reviews of that
    product fails with 404 and so does any new review of it.  An admin can
    still soft-delete its reviews, and the rating of the soft-deleted
    product is recomputed then. *)
Theorem deleted_product_keeps_its_reviews id user db x :
  (delete_product id user db).2 = Return x →
  let db' := (delete_product id user db).1 in
  get_reviews db' = get_reviews db ∧
  get_product_reviews id db' = raise HTTP_404_NOT_FOUND "Product not found" ∧
  (∀ now review buyer,
     rc_product_id review = id →
     create_review now review buyer db' =
       (db', raise HTTP_404_NOT_FOUND "Product not found")) ∧
  (∀ review_id r admin,
     reviews db !! review_id = Some r → r_is_active r = true →
     r_product_id r = id →
     (delete_review review_id admin db').2 = Return "Review deleted" ∧
     ∃ p', products (delete_review review_id admin db').1 !! id = Some p' ∧
           p_is_active p' = false ∧
           (p_rating p' ==
            expected_rating
              (active_grades id (delete_review review_id admin db').1))%Q).
Proof.
  intros Hx db'.
  apply delete_product_Return in Hx as (p & Hp & Hact & Hown & Hdb'').
  subst db'. rewrite Hdb''.
  set (db' := set_products _ db).
  assert (products db' !! id = Some (deactivate_product p)) as Hp'.
  { simpl. by rewrite lookup_insert_eq. }
  assert (select_active p_is_active (products db') id = None) as Hsel.
  { unfold select_active. by rewrite Hp'. }
  split; [done|]. split; [|split].
  - unfold get_product_reviews. by rewrite Hsel.
  - intros now review buyer <-. unfold create_review. by rewrite Hsel.
  - intros review_id r admin Hr Hactr <-.
    unfold delete_review, select_active.
    change (reviews db') with (reviews db). rewrite Hr, Hactr.
    set (db1 := set_reviews _ db').
    rewrite (update_product_rating_Some db1 _ (deactivate_product p)) by done.
    split; [done|]. cbn [fst]. eexists. split; [|split].
    + simpl. by rewrite lookup_insert_eq.
    + done.
    + exact (or_zero_avg (active_grades (r_product_id r) db1)).
Qed.

Lemma deleted_product_keeps_its_reviews_witness :
  get_reviews closed_shop = get_reviews shop ∧
  get_product_reviews 1 closed_shop =
    raise HTTP_404_NOT_FOUND "Product not found" ∧
  (delete_review 1 admin1 closed_shop).2 = Return "Review deleted" ∧
  ∃ p', products (delete_review 1 admin1 closed_shop).1 !! 1 = Some p' ∧
        p_is_active p' = false ∧
        (p_rating p' ==
         expected_rating
           (active_grades 1 (delete_review 1 admin1 closed_shop).1))%Q.
Proof.
  destruct (deleted_product_keeps_its_reviews 1 seller7 shop
              (1, deactivate_product stored_novel))
    as (Hall & Hlist & _ & Hdel).
  - by vm_compute.
  - split; [exact Hall|]. split; [exact Hlist|].
    apply (Hdel 1 (mkReview 8 1 None 100 4 true) admin1); by vm_compute.
Defined.

(** ** Products: creating, updating, fetching *)

(** X13.  A product in an active category is created under an id that was
    not in use, with the current user as its seller, the rating 0 and
    active; it can be fetched by that id and is in the listing of its
    category at once, and no other row is touched. *)
Theorem create_product_stores_new_row product user db :
  category_active db (pc_category_id product) →
  ∃ id db',
    let row := mkProduct (pc_name product) (pc_description product)
                         (pc_price product) (pc_category_id product)
                         (u_id user) 0%Q true in
    create_product product user db = (db', Return (id, row)) ∧
    products db !! id = None ∧
    get_product id db' = Return (id, row) ∧
    (∃ l, get_products_by_category (pc_category_id product) db' = Return l ∧
          (id, row) ∈ l) ∧
    (∀ k p, products db !! k = Some p → products db' !! k = Some p) ∧
    categories db' = categories db ∧ reviews db' = reviews db.
Proof.
  intros [c Hc].
  pose proof (next_id_fresh (products db)) as Hfresh.
  eexists (next_id (products db)), _.
  split; [|split; [done|split; [|split; [|split]]]].
  - unfold create_product. by rewrite Hc.
  - unfold get_product, select_active. simpl. by rewrite lookup_insert_eq.
  - unfold get_products_by_category. simpl. rewrite Hc.
    eexists. split; [done|]. apply elem_of_select_all. simpl.
    by rewrite lookup_insert_eq.
  - intros k p Hk. simpl. rewrite lookup_insert_ne; [done|]. congruence.
  - done.
Qed.

Lemma create_product_stores_new_row_witness :
  ∃ id db',
    create_product reprint seller9 shop
      = (db', Return (id, mkProduct "reprint" "again" 12%Q 2 9 0%Q true)) ∧
    products shop !! id = None ∧
    get_product id db'
      = Return (id, mkProduct "reprint" "again" 12%Q 2 9 0%Q true) ∧
    (∃ l, get_products_by_category 2 db' = Return l ∧
          (id, mkProduct "reprint" "again" 12%Q 2 9 0%Q true) ∈ l) ∧
    (∀ k p, products shop !! k = Some p → products db' !! k = Some p) ∧
    categories db' = categories shop ∧ reviews db' = reviews shop.
Proof.
  apply (create_product_stores_new_row reprint seller9 shop).
  exists (mkCategory "novels" (Some 1) true). by vm_compute.
Defined.

Lemma update_product_writes product_id product user db p :
  products db !! product_id = Some p →
  p_seller_id p = u_id user →
  category_active db (pc_category_id product) →
  update_product product_id product user db =
    (set_products (<[product_id := product_values product p]> (products db)) db,
     Return (product_id, product_values product p)).
Proof.
  intros Hp Hown [c Hc]. unfold update_product.
  rewrite Hp, decide_False, Hc; [done|]. by intros Hne.
Qed.

(** X14.  The owner's update with an active category overwrites the name,
    the description, the price and the category of the product and leaves
    its seller, its rating and [is_active] as they were; an active product
    is then fetched with the new values; the same update a second time
    changes nothing more. *)
Theorem update_product_overwrites product_id product user db p :
  products db !! product_id = Some p →
  p_seller_id p = u_id user →
  category_active db (pc_category_id product) →
  ∃ db' row,
    update_product product_id product user db
      = (db', Return (product_id, row)) ∧
    products db' !! product_id = Some row ∧
    (p_name row, p_description row, p_price row, p_category_id row)
      = (pc_name product, pc_description product, pc_price product,
         pc_category_id product) ∧
    (p_seller_id row, p_rating row, p_is_active row)
      = (p_seller_id p, p_rating p, p_is_active p) ∧
    (p_is_active p = true → get_product product_id db'
                            = Return (product_id, row)) ∧
    update_product product_id product user db'
      = (db', Return (product_id, row)).
Proof.
  intros Hp Hown Hcat. eexists _, _.
  split; [by apply update_product_writes|].
  split; [simpl; by rewrite lookup_insert_eq|].
  split; [done|]. split; [done|]. split.
  - intros Hact. unfold get_product, select_active. simpl.
    rewrite lookup_insert_eq. simpl. by rewrite Hact.
  - rewrite (update_product_writes product_id product user _
               (product_values product p)); [| |done|done].
    + simpl. by rewrite insert_insert_eq.
    + simpl. by rewrite lookup_insert_eq.
Qed.

Lemma update_product_overwrites_witness :
  ∃ db' row,
    update_product 1 reprint seller7 shop = (db', Return (1, row)) ∧
    products db' !! 1 = Some row ∧
    (p_name row, p_description row, p_price row, p_category_id row)
      = ("reprint", "again", 12%Q, 2) ∧
    (p_seller_id row, p_rating row, p_is_active row)
      = (7, (9 # 2)%Q, true) ∧
    (true = true → get_product 1 db' = Return (1, row)) ∧
    update_product 1 reprint seller7 db' = (db', Return (1, row)).
Proof.
  apply (update_product_overwrites 1 reprint seller7 shop stored_novel).
  - by vm_compute.
  - reflexivity.
  - exists (mkCategory "novels" (Some 1) true). by vm_compute.
Defined.

(** ** Reviews: what a new review and a soft-delete do to the rating *)

Lemma elem_of_active_reviews product_id db id r :
  (id, r) ∈ active_reviews product_id db ↔
  reviews db !! id = Some r ∧ r_product_id r = product_id ∧
  r_is_active r = true.
Proof. unfold active_reviews. by rewrite elem_of_select_all. Qed.

(** X15.  A review with a grade in 1..5 of an active product is stored
    under an id that was not in use, with the current user as its author and
    active; the grades of the active reviews of the product are then the
    ones from before and the new one, and the rating of the product is their
    mean.  The other fields of the product and the other products are as
    before. *)
Theorem create_review_adds_a_grade now review user db p :
  products db !! rc_product_id review = Some p → p_is_active p = true →
  1 ≤ rc_grade review ≤ 5 →
  ∃ id db',
    let row := mkReview (u_id user) (rc_product_id review) (rc_comment review)
                        now (rc_grade review) true in
    create_review now review user db = (db', Return (id, row)) ∧
    reviews db !! id = None ∧
    reviews db' = <[id := row]> (reviews db) ∧
    active_grades (rc_product_id review) db'
      ≡ₚ rc_grade review :: active_grades (rc_product_id review) db ∧
    (∃ p', products db' !! rc_product_id review = Some p' ∧
           (p_rating p' ==
            mean (rc_grade review :: active_grades (rc_product_id review) db))%Q ∧
           product_fields p' = product_fields p ∧
           p_is_active p' = p_is_active p) ∧
    (∀ k, k ≠ rc_product_id review → products db' !! k = products db !! k) ∧
    categories db' = categories db.
Proof.
  intros Hp Hact Hgrade.
  pose proof (next_id_fresh (reviews db)) as Hfresh.
  set (row := mkReview (u_id user) (rc_product_id review) (rc_comment review)
                       now (rc_grade review) true).
  set (db1 := set_reviews (<[next_id (reviews db) := row]> (reviews db)) db).
  assert (active_grades (rc_product_id review) db1
          ≡ₚ rc_grade review :: active_grades (rc_product_id review) db)
    as Hperm.
  { unfold active_grades. subst db1.
    rewrite active_reviews_insert by done.
    unfold review_if. by rewrite decide_True. }
  eexists (next_id (reviews db)), _.
  split; [|split; [done|split; [|split; [|split; [|split]]]]].
  - unfold create_review, select_active.
    rewrite Hp, Hact, decide_False by lia. fold row. fold db1.
    by rewrite (update_product_rating_Some db1 _ p).
  - done.
  - done.
  - eexists. split; [simpl; by rewrite lookup_insert_eq|].
    split; [|done]. simpl.
    rewrite (or_zero_avg (active_grades (rc_product_id review) db1)).
    by rewrite (expected_rating_perm _ _ Hperm).
  - intros k Hne. simpl. by rewrite lookup_insert_ne.
  - done.
Qed.

Lemma create_review_adds_a_grade_witness :
  ∃ id db',
    create_review 102 (mkReviewCreate 1 None 3) buyer8 shop
      = (db', Return (id, mkReview 8 1 None 102 3 true)) ∧
    reviews shop !! id = None ∧
    reviews db' = <[id := mkReview 8 1 None 102 3 true]> (reviews shop) ∧
    active_grades 1 db' ≡ₚ 3 :: active_grades 1 shop ∧
    (∃ p', products db' !! 1 = Some p' ∧
           (p_rating p' == mean (3%Z :: active_grades 1 shop))%Q ∧
           product_fields p' = product_fields stored_novel ∧
           p_is_active p' = true) ∧
    (∀ k, k ≠ 1 → products db' !! k = products shop !! k) ∧
    categories db' = categories shop.
Proof.
  apply (create_review_adds_a_grade 102 (mkReviewCreate 1 None 3) buyer8 shop
           stored_novel).
  - by vm_compute.
  - reflexivity.
  - simpl. lia.
Defined.

(** X16.  The successful soft-delete of a review takes its grade, and no
    other, out of the grades of the active reviews of its product; the
    grades of the other products are as before. *)
Theorem delete_review_removes_a_grade review_id user db r x :
  reviews db !! review_id = Some r →
  (delete_review review_id user db).2 = Return x →
  let db' := (delete_review review_id user db).1 in
  active_grades (r_product_id r) db
    ≡ₚ r_grade r :: active_grades (r_product_id r) db' ∧
  (∀ k, k ≠ r_product_id r → active_grades k db' ≡ₚ active_grades k db) ∧
  (∀ l, get_product_reviews (r_product_id r) db' = Return l →
        (review_id, r) ∉ l).
Proof.
  intros Hr Hx db'.
  apply delete_review_Return in Hx as (r0 & p & Hr0 & Hact & Hp & Hdb'').
  assert (r0 = r) as -> by congruence.
  subst db'. rewrite Hdb''.
  set (db1 := set_reviews _ db).
  destruct (active_reviews_replace (r_product_id r) review_id r
              (deactivate_review r) db Hr) as (rest & Hold & Hnew).
  rewrite (review_if_inactive _ _ (deactivate_review r)) in Hnew by done.
  unfold review_if in Hold. rewrite decide_True in Hold by done.
  split; [|split].
  - unfold active_grades.
    change (active_reviews (r_product_id r) (set_products _ db1))
      with (active_reviews (r_product_id r) db1).
    subst db1. by rewrite Hold, Hnew.
  - intros k Hne. apply active_grades_perm.
    change (active_reviews k (set_products _ db1))
      with (active_reviews k db1).
    by apply (active_reviews_replace_other k review_id r).
  - intros l Hl Hin. unfold get_product_reviews in Hl.
    destruct (select_active _ _ _); [|done]. injection Hl as <-.
    apply elem_of_active_reviews in Hin as (Hin & _). simpl in Hin.
    rewrite lookup_insert_eq in Hin. injection Hin as Hin.
    rewrite <- Hin in Hact. done.
Qed.

Lemma delete_review_removes_a_grade_witness :
  active_grades 1 shop ≡ₚ 4 :: active_grades 1 (delete_review 1 admin1 shop).1 ∧
  (∀ k, k ≠ 1 → active_grades k (delete_review 1 admin1 shop).1
                ≡ₚ active_grades k shop) ∧
  (∀ l, get_product_reviews 1 (delete_review 1 admin1 shop).1 = Return l →
        (1, mkReview 8 1 None 100 4 true) ∉ l).
Proof.
  apply (delete_review_removes_a_grade 1 admin1 shop
           (mkReview 8 1 None 100 4 true) "Review deleted"); by vm_compute.
Defined.

(** X17.  The listing of the reviews of a product holds a review exactly
    when it is an active review of that product and the product is active;
    for a missing or soft-deleted product the request fails with 404,
    whatever reviews the product has. *)
Theorem get_product_reviews_spec db product_id :
  (∀ id r,
     (∃ l, get_product_reviews product_id db = Return l ∧ (id, r) ∈ l) ↔
     reviews db !! id = Some r ∧ r_product_id r = product_id ∧
     r_is_active r = true ∧ product_active db product_id) ∧
  (¬ product_active db product_id →
   get_product_reviews product_id db =
     raise HTTP_404_NOT_FOUND "Product not found").
Proof.
  unfold get_product_reviews, product_active. split.
  - intros id r. split.
    + intros (l & Hl & Hin).
      destruct (select_active _ _ product_id) as [p|] eqn:Hp; [|done].
      injection Hl as <-.
      apply elem_of_active_reviews in Hin as (Hr & Hprod & Hact). eauto.
    + intros (Hr & Hprod & Hact & [p Hp]). rewrite Hp.
      eexists. split; [done|]. by apply elem_of_active_reviews.
  - intros Hno. destruct (select_active _ _ product_id) as [p|]; [|done].
    destruct Hno. eauto.
Qed.

Lemma get_product_reviews_spec_witness :
  (∃ l, get_product_reviews 1 shop = Return l ∧
        (2, mkReview 8 1 (Some "good") 101 5 true) ∈ l) ∧
  get_product_reviews 1 closed_shop =
    raise HTTP_404_NOT_FOUND "Product not found".
Proof.
  split.
  - apply (proj1 (get_product_reviews_spec shop 1) 2
             (mkReview 8 1 (Some "good") 101 5 true)).
    split; [by vm_compute|]. split; [reflexivity|]. split; [reflexivity|].
    exists stored_novel. by vm_compute.
  - apply (proj2 (get_product_reviews_spec closed_shop 1)).
    intros [p Hp]. vm_compute in Hp. discriminate Hp.
Defined.

(** ** The middleware and the failures of the handlers *)

(** X18.  What the log says of a refused request depends on the status
    only: the 404 and 403 of the handlers are logged as a warning "Request
    to ... failed", while the refusals with the status 400 (a missing
    category, a category as its own parent, a grade outside 1..5) are
    logged at the level INFO as "Successfully accessed ...".  The response
    goes out with the status and the detail of the exception either way. *)
Theorem refusals_in_the_log {A} path success ex (r : response A) e :
  r = Raise e →
  (log_middleware path (call_next success ex r)).2
    = (status_code e, Passed (inr (detail e))) ∧
  (NotFound e ∨ Forbidden e →
   (log_middleware path (call_next success ex r)).1
     = (WARNING, "Request to " +:+ path +:+ " failed")) ∧
  (InvalidReference e ∨ InvalidSelfReference e ∨ InvalidGrade e →
   (log_middleware path (call_next success ex r)).1
     = (INFO, "Successfully accessed " +:+ path)).
Proof.
  intros ->. split; [done|]. split.
  - intros [Hnf | Hfb]; simpl; [rewrite Hnf | rewrite Hfb]; done.
  - intros [[Hst _] | [-> | ->]]; simpl; [by rewrite Hst | done | done].
Qed.

Lemma refusals_in_the_log_witness :
  (log_middleware "/reviews/"
     (call_next 201 ""
        (create_review 102 (mkReviewCreate 1 None 6) buyer8 shop).2)).1
    = (INFO, "Successfully accessed /reviews/") ∧
  (log_middleware "/reviews/"
     (call_next 201 ""
        (create_review 102 (mkReviewCreate 9 None 6) buyer8 shop).2)).1
    = (WARNING, "Request to /reviews/ failed").
Proof.
  split.
  - apply (proj2 (proj2 (refusals_in_the_log "/reviews/" 201 ""
              (create_review 102 (mkReviewCreate 1 None 6) buyer8 shop).2
              (mkHTTPException HTTP_400_BAD_REQUEST
                 "The grade should be in the range from 1 to 5")
              ltac:(by vm_compute)))).
    right. right. reflexivity.
  - apply (proj1 (proj2 (refusals_in_the_log "/reviews/" 201 ""
              (create_review 102 (mkReviewCreate 9 None 6) buyer8 shop).2
              (mkHTTPException HTTP_404_NOT_FOUND "Product not found")
              ltac:(by vm_compute)))).
    left. reflexivity.
Defined.

(** X19.  The soft-delete of a review is committed before the rating is
    recomputed: when the product of an active review has no row, the review
    is soft-deleted all the same, nothing else is written, the handler ends
    in the attribute error, and the middleware answers 500 with
    [{"success": False}] and logs an error. *)
Theorem delete_review_fault_after_commit review_id user db r path ex :
  reviews db !! review_id = Some r → r_is_active r = true →
  products db !! r_product_id r = None →
  delete_review review_id user db =
    (set_reviews (<[review_id := deactivate_review r]> (reviews db)) db,
     Unhandled) ∧
  log_middleware path
    (call_next 200 ex (delete_review review_id user db).2) =
    ((ERROR, "Request to " +:+ path +:+ " failed: " +:+ ex),
     (500, SuccessFalse)).
Proof.
  intros Hr Hact Hp.
  assert (delete_review review_id user db =
          (set_reviews (<[review_id := deactivate_review r]> (reviews db)) db,
           Unhandled)) as Hdel.
  { unfold delete_review, select_active, update_product_rating.
    rewrite Hr, Hact. simpl. by rewrite Hp. }
  split; [done|]. by rewrite Hdel.
Qed.

Lemma delete_review_fault_after_commit_witness :
  delete_review 1 admin1 stray_db =
    (set_reviews (<[1 := deactivate_review stray_review]> (reviews stray_db))
                 stray_db,
     Unhandled) ∧
  log_middleware "/reviews/1"
    (call_next 200 "AttributeError" (delete_review 1 admin1 stray_db).2) =
    ((ERROR, "Request to " +:+ "/reviews/1" +:+ " failed: " +:+ "AttributeError"),
     (500, SuccessFalse)).
Proof.
  apply (delete_review_fault_after_commit 1 admin1 stray_db stray_review
           "/reviews/1" "AttributeError"); by vm_compute.
Defined.

(** ** Who can change a product *)

(** The row of a product after a request: as before, or with a new rating
    after a request on one of its reviews, or rewritten by its owner. *)
Lemma app_product_row req db id p p' :
  products db !! id = Some p →
  products (app req db) !! id = Some p' →
  p' = p ∨
  (∃ q, p' = set_rating q p ∧
        match req with
        | CreateReview _ review _ => rc_product_id review = id
        | DeleteReview review_id _ =>
            ∃ r, reviews db !! review_id = Some r ∧ r_product_id r = id
        | _ => False
        end) ∨
  match req with
  | UpdateProduct k product user =>
      k = id ∧ u_id user = p_seller_id p ∧ p' = product_values product p
  | DeleteProduct k user =>
      k = id ∧ u_id user = p_seller_id p ∧ p' = deactivate_product p
  | _ => False
  end.
Proof.
  intros Hp.
  assert (products db !! id = Some p' → p' = p) as Hsame by congruence.
  destruct req; simpl; unfold requires; try destruct (has_role _ _);
    try (intros Hp'; left; by apply Hsame).
  - unfold create_category. destruct (parent_id _);
      [destruct (select_active _ _ _)|]; intros Hp'; left; by apply Hsame.
  - unfold update_category. destruct (select_active _ _ _);
      [destruct (parent_id _);
       [destruct (select_active _ _ _); [case_decide|]|]|];
      intros Hp'; left; by apply Hsame.
  - unfold delete_category. destruct (select_active _ _ _);
      intros Hp'; left; by apply Hsame.
  - unfold create_product.
    destruct (select_active _ _ _); [|intros Hp'; left; by apply Hsame].
    simpl. rewrite lookup_insert_ne; [intros Hp'; left; by apply Hsame|].
    intros Heq. rewrite <- Heq, next_id_fresh in Hp. done.
  - unfold update_product.
    destruct (products db !! product_id) as [p0|] eqn:Hp0;
      [|intros Hp'; left; by apply Hsame].
    case_decide as Hown; [intros Hp'; left; by apply Hsame|].
    destruct (select_active _ _ _); [|intros Hp'; left; by apply Hsame].
    simpl. destruct (decide (product_id = id)) as [->|Hne].
    + rewrite lookup_insert_eq. intros [= <-]. right. right.
      assert (p0 = p) as -> by congruence.
      split; [done|]. split; [|done].
      by destruct (decide (p_seller_id p = u_id current_user)).
    + rewrite lookup_insert_ne by done. intros Hp'. left. by apply Hsame.
  - unfold delete_product.
    destruct (select_active _ _ _) as [p0|] eqn:Hp0;
      [|intros Hp'; left; by apply Hsame].
    apply select_active_Some in Hp0 as [Hp0 _].
    case_decide as Hown; [intros Hp'; left; by apply Hsame|].
    simpl. destruct (decide (product_id = id)) as [->|Hne].
    + rewrite lookup_insert_eq. intros [= <-]. right. right.
      assert (p0 = p) as -> by congruence.
      split; [done|]. split; [|done].
      by destruct (decide (p_seller_id p = u_id current_user)).
    + rewrite lookup_insert_ne by done. intros Hp'. left. by apply Hsame.
  - unfold create_review.
    destruct (select_active _ _ _) as [pa|];
      [|intros Hp'; left; by apply Hsame].
    case_decide; [intros Hp'; left; by apply Hsame|].
    destruct (update_product_rating _ _) as [db2|] eqn:Hup; cbn [fst];
      [|intros Hp'; left; by apply Hsame].
    apply update_product_rating_inv in Hup as (p0 & Hp0 & ->). simpl in *.
    destruct (decide (rc_product_id review = id)) as [Heq|Hne].
    + rewrite Heq in *. rewrite lookup_insert_eq. intros [= <-].
      assert (p0 = p) as -> by congruence. right. left. eauto.
    + rewrite lookup_insert_ne by done. intros Hp'. left. by apply Hsame.
  - unfold delete_review.
    destruct (select_active _ _ _) as [r|] eqn:Hr;
      [|intros Hp'; left; by apply Hsame].
    apply select_active_Some in Hr as [Hr _].
    destruct (update_product_rating _ _) as [db2|] eqn:Hup; cbn [fst];
      [|intros Hp'; left; by apply Hsame].
    apply update_product_rating_inv in Hup as (p0 & Hp0 & ->). simpl in *.
    destruct (decide (r_product_id r = id)) as [Heq|Hne].
    + rewrite Heq in *. rewrite lookup_insert_eq. intros [= <-].
      assert (p0 = p) as -> by congruence. right. left. eauto.
    + rewrite lookup_insert_ne by done. intros Hp'. left. by apply Hsame.
Qed.

(** X20.  No request sets a rating but the creation and the soft-delete of
    a review of that product: an update of the product carries the rating
    over. *)
Theorem rating_changes_with_reviews_only req db id p p' :
  products db !! id = Some p →
  products (app req db) !! id = Some p' →
  p_rating p' ≠ p_rating p →
  match req with
  | CreateReview _ review _ => rc_product_id review = id
  | DeleteReview review_id _ =>
      ∃ r, reviews db !! review_id = Some r ∧ r_product_id r = id
  | _ => False
  end.
Proof.
  intros Hp Hp' Hchanged.
  destruct (app_product_row req db id p p' Hp Hp')
    as [-> | [(q & -> & Hreq) | Hreq]]; [done | done |].
  destruct req; try done; destruct Hreq as (_ & _ & ->); done.
Qed.

Lemma rating_changes_with_reviews_only_witness :
  ∃ r, reviews shop !! 1 = Some r ∧ r_product_id r = 1.
Proof.
  apply (rating_changes_with_reviews_only (DeleteReview 1 admin1) shop 1
           stored_novel (set_rating 5%Q stored_novel)).
  - by vm_compute.
  - by vm_compute.
  - intros Heq. vm_compute in Heq. discriminate Heq.
Defined.

(** X21.  The name, the description, the price, the category and
    [is_active] of a product change only by an update or a soft-delete of
    that product by the user who is its seller. *)
Theorem product_changes_by_its_seller_only req db id p p' :
  products db !! id = Some p →
  products (app req db) !! id = Some p' →
  (product_fields p', p_is_active p') ≠ (product_fields p, p_is_active p) →
  match req with
  | UpdateProduct k _ user | DeleteProduct k user =>
      k = id ∧ u_id user = p_seller_id p
  | _ => False
  end.
Proof.
  intros Hp Hp' Hchanged.
  destruct (app_product_row req db id p p' Hp Hp')
    as [-> | [(q & -> & Hreq) | Hreq]]; [done | done |].
  destruct req; try done; destruct Hreq as (? & ? & _); done.
Qed.

Lemma product_changes_by_its_seller_only_witness :
  1 = 1 ∧ u_id seller7 = p_seller_id stored_novel.
Proof.
  apply (product_changes_by_its_seller_only (DeleteProduct 1 seller7) shop 1
           stored_novel (deactivate_product stored_novel)).
  - by vm_compute.
  - by vm_compute.
  - intros Heq. vm_compute in Heq. discriminate Heq.
Defined.
